(** * IVF writer of server-sdk-go ([pkg/media/ivfwriter/ivfwriter.go])

    A shallow embedding of the IVF container writer and the properties of
    its frame assembly, header layout and finalisation.

    Conventions of the embedding:
    - Go's unsigned integers are [Z] with the wrap-around written out
      ([uint32], [uint64]); bytes are [Byte.byte]; a Go [[]byte] that the
      code compares with [nil] is an [option (list byte)].
    - Go interfaces are type classes: [Sink] for [io.Writer] with the two
      capabilities the code probes for ([io.Seeker], [io.Closer]), and
      [Pion] for the packet parsers of pion/rtp, which are not part of
      this repository.
    - Methods on [*IVFWriter] are computations in a small state monad over
      the writer and the sink it points to; a result is [Ok], [Err] or
      [Panic] (an index out of range, a nil dereference). State changes
      made before an error is returned are kept, as in Go.
    - [New], which creates a file and passes it to [NewWith], and the
      rational approximation [framerate.GetBestMatch], whose code is in
      another package, are outside the model; the latter is a parameter. *)

From Stdlib Require Import String Strings.Byte.
From Stdlib Require Import Floats.PrimFloat Floats.SpecFloat Floats.FloatOps.
From Stdlib Require Import ZArith List Bool Lia.
Import ListNotations.
Local Open Scope Z_scope.

Set Implicit Arguments.

(** ** Bytes and little-endian integers *)

Definition byte : Type := Byte.byte.

Definition byte_of_Z (v : Z) : byte :=
  match Byte.of_N (Z.to_N (v mod 256)) with
  | Some b => b
  | None => Byte.x00
  end.

Definition Z_of_byte (b : byte) : Z := Z.of_N (Byte.to_N b).

Definition uint32 (v : Z) : Z := v mod 2 ^ 32.
Definition uint64 (v : Z) : Z := v mod 2 ^ 64.

(** [binary.LittleEndian.PutUintN]: the [n] low bytes of [v], lowest first. *)
Fixpoint le_bytes (n : nat) (v : Z) : list byte :=
  match n with
  | O => []
  | S k => byte_of_Z v :: le_bytes k (v / 256)
  end.

(** [binary.LittleEndian.UintN], used to read a written field back. *)
Fixpoint le_value (bs : list byte) : Z :=
  match bs with
  | [] => 0
  | b :: rest => Z_of_byte b + 256 * le_value rest
  end.

(** [make([]byte, n)]. *)
Definition make (n : nat) : list byte := repeat Byte.x00 n.

(** [copy(buf[off:], src)] and [PutUintN(buf[off:], v)]: overwrite [buf]
    from [off] with as much of [src] as fits. *)
Definition copy_at (off : nat) (src buf : list byte) : list byte :=
  firstn off buf
    ++ firstn (length buf - off) src
    ++ skipn (off + length src) buf.

Definition PutUint16 (off : nat) (v : Z) := copy_at off (le_bytes 2 v).
Definition PutUint32 (off : nat) (v : Z) := copy_at off (le_bytes 4 v).
Definition PutUint64 (off : nat) (v : Z) := copy_at off (le_bytes 8 v).

(** [float64(x)] of an unsigned integer: round to nearest, ties to even. *)
Definition float64 (v : Z) : float := SF2Prim (binary_normalize 53 1024 v 0 false).

(** ** Errors and results *)

Inductive error : Type :=
| errFileNotOpened
| errInvalidNilPacket
| errCodecAlreadySet
| errNoSuchCodec
| errExternal (code : nat).   (* an error of the sink or of a parser *)

Inductive res (A : Type) : Type :=
| Ok (a : A)
| Err (e : error)
| Panic.
Arguments Err {A} e.
Arguments Panic {A}.

(** A Go [error] return value: [nil] is [Ok tt]. *)
Definition res_of_error (e : option error) : res unit :=
  match e with
  | None => Ok tt
  | Some err => Err err
  end.

Definition mimeTypeVP8 : string := "video/VP8".
Definition defaultVP8ClockRate : Z := 90000.
Definition mimeTypeAV1 : string := "video/AV1".
Definition ivfFileHeaderSignature : string := "DKIF".

(** ** The sink: [io.Writer], optionally [io.Seeker] and [io.Closer] *)

Class Sink (S : Type) : Type := {
  (** [Write(p)]; the byte count it returns is ignored by the writer. *)
  sink_Write : list byte -> S -> option error * S;
  (** [Some] when the dynamic type has [Seek(offset, whence)]. *)
  sink_Seek : option (Z -> Z -> S -> option error * S);
  (** [Some] when the dynamic type has [Close()]. *)
  sink_Close : option (S -> option error * S)
}.

(** ** The parsers of pion/rtp *)

Record VP8Packet : Type := mkVP8Packet {
  vp8_S : Z;                 (* uint8: start of VP8 partition *)
  vp8_Payload : list byte
}.

(** The low bit of the first payload byte, which [WriteRTP] calls
    [isKeyFrame]: 0 on a key frame. (0 here when there is no first byte.) *)
Definition keyframe_indicator (payload : list byte) : Z :=
  match payload with
  | b0 :: _ => Z.land (Z_of_byte b0) 1
  | [] => 0
  end.

Class Pion : Type := {
  (** [codecs.VP8Packet.Unmarshal] *)
  VP8Packet_Unmarshal : list byte -> error + VP8Packet;
  (** [codecs.AV1Packet] and its [Unmarshal] *)
  AV1Packet : Type;
  AV1Packet_Unmarshal : list byte -> error + AV1Packet;
  (** [frame.AV1], its zero value and [ReadFrames], which keeps state. *)
  AV1 : Type;
  AV1_zero : AV1;
  AV1_ReadFrames : AV1Packet -> AV1 -> (error + list (list byte)) * AV1
}.

(** [rtp.Packet], the fields the writer reads. *)
Record Packet : Type := mkPacket {
  Payload : list byte;
  Marker : bool;
  Timestamp : Z              (* uint32 *)
}.

(** The one [io.Writer] object a writer can point to. *)
Inductive sink_ref : Type := the_sink.

Section Writer.

Context {S : Type} {SK : Sink S} {P : Pion}.

(** [framerate.GetBestMatch] of this repository's [pkg/media/framerate]. *)
Variable GetBestMatch : float -> Z * Z.

Record IVFWriter : Type := mkIVFWriter {
  ioWriter : option sink_ref;
  seenKeyFrame : bool;
  isVP8 : bool;
  isAV1 : bool;
  currentFrame : option (list byte);
  av1Frame : AV1;
  frameCount : Z;            (* uint64 *)
  clockRate : Z;             (* uint32 *)
  firstTimestamp : Z;        (* uint32 *)
  lastTimestamp : Z          (* uint32 *)
}.

Definition set_ioWriter (v : option sink_ref) (i : IVFWriter) : IVFWriter :=
  mkIVFWriter v (seenKeyFrame i) (isVP8 i) (isAV1 i) (currentFrame i)
    (av1Frame i) (frameCount i) (clockRate i) (firstTimestamp i) (lastTimestamp i).
Definition set_seenKeyFrame (v : bool) (i : IVFWriter) : IVFWriter :=
  mkIVFWriter (ioWriter i) v (isVP8 i) (isAV1 i) (currentFrame i)
    (av1Frame i) (frameCount i) (clockRate i) (firstTimestamp i) (lastTimestamp i).
Definition set_isVP8 (v : bool) (i : IVFWriter) : IVFWriter :=
  mkIVFWriter (ioWriter i) (seenKeyFrame i) v (isAV1 i) (currentFrame i)
    (av1Frame i) (frameCount i) (clockRate i) (firstTimestamp i) (lastTimestamp i).
Definition set_isAV1 (v : bool) (i : IVFWriter) : IVFWriter :=
  mkIVFWriter (ioWriter i) (seenKeyFrame i) (isVP8 i) v (currentFrame i)
    (av1Frame i) (frameCount i) (clockRate i) (firstTimestamp i) (lastTimestamp i).
Definition set_currentFrame (v : option (list byte)) (i : IVFWriter) : IVFWriter :=
  mkIVFWriter (ioWriter i) (seenKeyFrame i) (isVP8 i) (isAV1 i) v
    (av1Frame i) (frameCount i) (clockRate i) (firstTimestamp i) (lastTimestamp i).
Definition set_av1Frame (v : AV1) (i : IVFWriter) : IVFWriter :=
  mkIVFWriter (ioWriter i) (seenKeyFrame i) (isVP8 i) (isAV1 i) (currentFrame i)
    v (frameCount i) (clockRate i) (firstTimestamp i) (lastTimestamp i).
Definition set_frameCount (v : Z) (i : IVFWriter) : IVFWriter :=
  mkIVFWriter (ioWriter i) (seenKeyFrame i) (isVP8 i) (isAV1 i) (currentFrame i)
    (av1Frame i) v (clockRate i) (firstTimestamp i) (lastTimestamp i).
Definition set_clockRate (v : Z) (i : IVFWriter) : IVFWriter :=
  mkIVFWriter (ioWriter i) (seenKeyFrame i) (isVP8 i) (isAV1 i) (currentFrame i)
    (av1Frame i) (frameCount i) v (firstTimestamp i) (lastTimestamp i).
Definition set_firstTimestamp (v : Z) (i : IVFWriter) : IVFWriter :=
  mkIVFWriter (ioWriter i) (seenKeyFrame i) (isVP8 i) (isAV1 i) (currentFrame i)
    (av1Frame i) (frameCount i) (clockRate i) v (lastTimestamp i).
Definition set_lastTimestamp (v : Z) (i : IVFWriter) : IVFWriter :=
  mkIVFWriter (ioWriter i) (seenKeyFrame i) (isVP8 i) (isAV1 i) (currentFrame i)
    (av1Frame i) (frameCount i) (clockRate i) (firstTimestamp i) v.

(** The zero value [&IVFWriter{}]. *)
Definition zero_IVFWriter : IVFWriter :=
  mkIVFWriter None false false false None AV1_zero 0 0 0 0.

(** *** The state monad of the methods *)

Definition World : Type := (IVFWriter * S)%type.
Definition M (A : Type) : Type := World -> res A * World.

Definition ret {A} (a : A) : M A := fun w => (Ok a, w).
Definition fail {A} (e : error) : M A := fun w => (Err e, w).
Definition panic {A} : M A := fun w => (Panic, w).

Definition bind {A B} (m : M A) (k : A -> M B) : M B :=
  fun w =>
    match m w with
    | (Ok a, w') => k a w'
    | (Err e, w') => (Err e, w')
    | (Panic, w') => (Panic, w')
    end.

Definition get : M IVFWriter := fun w => (Ok (fst w), w).
Definition modify (f : IVFWriter -> IVFWriter) : M unit :=
  fun w => (Ok tt, (f (fst w), snd w)).

(** Call a method of [i.ioWriter]: a nil interface panics, a non-nil error
    is returned at once. *)
Definition on_sink (op : S -> option error * S) : M unit :=
  fun w =>
    match ioWriter (fst w) with
    | None => (Panic, w)
    | Some _ => let (e, s') := op (snd w) in (res_of_error e, (fst w, s'))
    end.

Notation "x <- m ;; k" := (bind m (fun x => k))
  (at level 61, m at next level, right associativity).
Notation "m ;;; k" := (bind m (fun _ => k))
  (at level 61, right associativity).

(** *** Options *)

(** [type Option func(i *IVFWriter) error]: an option sees the writer only. *)
Definition Option : Type := IVFWriter -> option error * IVFWriter.

Definition WithCodec (mimeType : string) : Option :=
  fun i =>
    if isVP8 i || isAV1 i then (Some errCodecAlreadySet, i)
    else if String.eqb mimeType mimeTypeVP8 then
      let i := set_isVP8 true i in
      (None, if clockRate i =? 0 then set_clockRate defaultVP8ClockRate i else i)
    else if String.eqb mimeType mimeTypeAV1 then
      (None, set_isAV1 true i)
    else (Some errNoSuchCodec, i).

Definition WithClockRate (rate : Z) : Option :=
  fun i => (None, set_clockRate rate i).

(** The loop [for _, o := range opts] of [NewWith]: the first error stops it. *)
Fixpoint apply_opts (opts : list Option) (i : IVFWriter)
  : option error * IVFWriter :=
  match opts with
  | [] => (None, i)
  | o :: rest =>
      match o i with
      | (Some e, i') => (Some e, i')
      | (None, i') => apply_opts rest i'
      end
  end.

(** *** Header and frames *)

(** The 32 bytes built by [writeHeader] from the two codec flags. *)
Definition fileHeader (vp8 av1 : bool) : list byte :=
  let header := make 32 in
  let header := copy_at 0 (list_byte_of_string ivfFileHeaderSignature) header in
  let header := PutUint16 4 0 header in
  let header := PutUint16 6 32 header in
  let header :=
    if vp8 then copy_at 8 (list_byte_of_string "VP80") header
    else if av1 then copy_at 8 (list_byte_of_string "AV01") header
    else header in
  let header := PutUint16 12 640 header in
  let header := PutUint16 14 480 header in
  let header := PutUint32 16 24 header in
  let header := PutUint32 20 1 header in
  let header := PutUint32 24 900 header in
  let header := PutUint32 28 0 header in
  header.

Definition writeHeader : M unit :=
  i <- get ;;
  on_sink (sink_Write (fileHeader (isVP8 i) (isAV1 i))).

(** The 12 bytes [writeFrame] builds: frame length, then PTS. *)
Definition frameHeader (frame : list byte) (count : Z) : list byte :=
  let frameHeader := make 12 in
  let frameHeader := PutUint32 0 (uint32 (Z.of_nat (length frame))) frameHeader in
  let frameHeader := PutUint64 4 count frameHeader in
  frameHeader.

Definition writeFrame (frame : list byte) : M unit :=
  i <- get ;;
  let hdr := frameHeader frame (frameCount i) in
  modify (set_frameCount (uint64 (frameCount i + 1))) ;;;
  on_sink (sink_Write hdr) ;;;
  on_sink (sink_Write frame).

(** The loop [for j := range obus] of the AV1 branch. *)
Fixpoint writeFrames (obus : list (list byte)) : M unit :=
  match obus with
  | [] => ret tt
  | obu :: rest => writeFrame obu ;;; writeFrames rest
  end.

(** [append(cur, p...)]: appending nothing to a nil slice leaves it nil. *)
Definition append (cur : option (list byte)) (p : list byte)
  : option (list byte) :=
  match cur, p with
  | None, [] => None
  | None, _ => Some p
  | Some c, _ => Some (c ++ p)
  end.

(** [len] of a slice that may be nil. *)
Definition len (cur : option (list byte)) : nat :=
  match cur with
  | None => O
  | Some c => length c
  end.

Definition bytes_of (cur : option (list byte)) : list byte :=
  match cur with
  | None => []
  | Some c => c
  end.

(** *** Construction *)

(** [NewWith(out, opts...)]; [out] is [None] for a nil [io.Writer]. The
    sink is touched by [writeHeader] only. *)
Definition NewWith (out : option sink_ref) (opts : list Option) (s : S)
  : res IVFWriter * S :=
  match out with
  | None => (Err errFileNotOpened, s)
  | Some r =>
      let writer := set_ioWriter (Some r) zero_IVFWriter in
      match apply_opts opts writer with
      | (Some e, _) => (Err e, s)
      | (None, writer) =>
          let writer :=
            if negb (isAV1 writer) && negb (isVP8 writer) then
              let writer := set_isVP8 true writer in
              if clockRate writer =? 0
              then set_clockRate defaultVP8ClockRate writer
              else writer
            else writer in
          match writeHeader (writer, s) with
          | (Ok _, (writer, s')) => (Ok writer, s')
          | (Err e, (_, s')) => (Err e, s')
          | (Panic, (_, s')) => (Panic, s')
          end
      end
  end.

(** *** Packets *)

(** The VP8 branch of [WriteRTP], after the payload was found non-empty. *)
Definition WriteRTP_VP8 (packet : Packet) : M unit :=
  i <- get ;;
  match VP8Packet_Unmarshal (Payload packet) with
  | inl e => fail e
  | inr vp8Packet =>
      match vp8_Payload vp8Packet with
      | [] => panic                                   (* Payload[0] *)
      | b0 :: _ =>
          let isKeyFrame := Z.land (Z_of_byte b0) 1 in
          if negb (seenKeyFrame i) && (isKeyFrame =? 1) then ret tt
          else if (match currentFrame i with None => true | Some _ => false end)
                  && negb (vp8_S vp8Packet =? 1) then ret tt
          else
            (if negb (seenKeyFrame i)
             then modify (fun i => set_firstTimestamp (Timestamp packet)
                                     (set_seenKeyFrame true i))
             else ret tt) ;;;
            modify (fun i => set_currentFrame
                               (append (currentFrame i) (vp8_Payload vp8Packet)) i) ;;;
            if negb (Marker packet) then ret tt
            else
              i <- get ;;
              if (len (currentFrame i) =? 0)%nat then ret tt
              else
                writeFrame (bytes_of (currentFrame i)) ;;;
                modify (fun i => set_currentFrame None
                                   (set_lastTimestamp (Timestamp packet) i))
      end
  end.

(** The AV1 branch of [WriteRTP]. *)
Definition WriteRTP_AV1 (packet : Packet) : M unit :=
  match AV1Packet_Unmarshal (Payload packet) with
  | inl e => fail e
  | inr av1Packet =>
      i <- get ;;
      let (r, st) := AV1_ReadFrames av1Packet (av1Frame i) in
      modify (set_av1Frame st) ;;;
      match r with
      | inl e => fail e
      | inr obus => writeFrames obus
      end
  end.

(** [WriteRTP(packet)]; [packet] is [None] for a nil pointer. *)
Definition WriteRTP (packet : option Packet) : M unit :=
  i <- get ;;
  match ioWriter i with
  | None => fail errFileNotOpened
  | Some _ =>
      match packet with
      | None => panic                                 (* packet.Payload *)
      | Some packet =>
          if (length (Payload packet) =? 0)%nat then ret tt
          else if isVP8 i then WriteRTP_VP8 packet
          else if isAV1 i then WriteRTP_AV1 packet
          else ret tt
      end
  end.

Definition FrameDropped : M unit :=
  modify (fun i => set_frameCount (uint64 (frameCount i + 1)) i).

(** *** Finalisation *)

(** The argument [Close] hands to [GetBestMatch]; the subtraction is on
    [uint32], the product and the quotient on [float64]. *)
Definition rate (i : IVFWriter) : float :=
  PrimFloat.div
    (PrimFloat.mul (float64 (clockRate i)) (float64 (frameCount i)))
    (float64 (uint32 (lastTimestamp i - firstTimestamp i))).

(** The 12 bytes [Close] writes at offset 16. *)
Definition patch (i : IVFWriter) : list byte :=
  let (num, den) := GetBestMatch (rate i) in
  let buff := make 12 in
  let buff := PutUint32 0 num buff in
  let buff := PutUint32 4 den buff in
  let buff := PutUint32 8 (uint32 (frameCount i)) buff in
  buff.

(** [Close()]. The deferred [i.ioWriter = nil] runs on every path past the
    first test, which [released] does once the body has a result. *)
Definition Close : M unit :=
  i <- get ;;
  match ioWriter i with
  | None => ret tt
  | Some _ =>
      let body : M unit :=
        (match sink_Seek with
         | Some seek =>
             on_sink (seek 16 0) ;;;
             on_sink (sink_Write (patch i))
         | None => ret tt
         end) ;;;
        match sink_Close with
        | Some close => on_sink close
        | None => ret tt
        end in
      fun w =>
        let (r, w') := body w in
        (r, (set_ioWriter None (fst w'), snd w'))
  end.

(** *** Sequences of calls *)

(** Feed packets in arrival order while [WriteRTP] returns nil. *)
Fixpoint feed (packets : list Packet) : M unit :=
  match packets with
  | [] => ret tt
  | p :: rest => WriteRTP (Some p) ;;; feed rest
  end.

(** Feed packets whatever [WriteRTP] returns, as a caller that drops the
    errors does; a panic ends the run. *)
Fixpoint feed_all (packets : list Packet) (w : World) : World :=
  match packets with
  | [] => w
  | p :: rest =>
      match WriteRTP (Some p) w with
      | (Panic, w') => w'
      | (_, w') => feed_all rest w'
      end
  end.

(** A frame slot is used by [writeFrame] or by [FrameDropped]. *)
Inductive slot : Type :=
| Written (frame : list byte)
| Dropped.

Definition use_slot (o : slot) : M unit :=
  match o with
  | Written frame => writeFrame frame
  | Dropped => FrameDropped
  end.

(** Slots used one after the other, whatever each call returns. *)
Fixpoint use_slots (ops : list slot) (w : World) : World :=
  match ops with
  | [] => w
  | o :: rest => use_slots rest (snd (use_slot o w))
  end.

(** What a caller can do with a writer. *)
Inductive call : Type :=
| CallWriteRTP (packet : option Packet)
| CallFrameDropped
| CallClose.

Definition do_call (c : call) : M unit :=
  match c with
  | CallWriteRTP packet => WriteRTP packet
  | CallFrameDropped => FrameDropped
  | CallClose => Close
  end.

(** Calls made one after the other, whatever each returns; a panic ends
    the run. *)
Fixpoint do_calls (calls : list call) (w : World) : World :=
  match calls with
  | [] => w
  | c :: rest =>
      match do_call c w with
      | (Panic, w') => w'
      | (_, w') => do_calls rest w'
      end
  end.

End Writer.

Arguments IVFWriter {P}.
Arguments zero_IVFWriter {P}.
Arguments World S {P}.

(** ** Concrete sinks *)

Definition ErrClosed : error := errExternal 1.
Definition ErrInvalidSeek : error := errExternal 2.
Definition errShortPacket : error := errExternal 3.

(** A pipe-like sink: [Write] appends, [Close] shuts it, there is no
    [Seek]. Writing to or closing a shut pipe is an error. *)
Record Pipe : Type := mkPipe {
  written : list byte;
  shut : bool
}.

#[export] Instance Pipe_Sink : Sink Pipe := {|
  sink_Write := fun p f =>
    if shut f then (Some ErrClosed, f)
    else (None, mkPipe (written f ++ p) (shut f));
  sink_Seek := None;
  sink_Close := Some (fun f =>
    if shut f then (Some ErrClosed, f)
    else (None, mkPipe (written f) true))
|}.

(** A file-like sink: [Write] overwrites from the cursor and extends the
    file, [Seek] moves the cursor, [Close] closes the file. *)
Record File : Type := mkFile {
  contents : list byte;
  offset : nat;
  closed : bool
}.

Definition write_at (off : nat) (p c : list byte) : list byte :=
  firstn off c ++ repeat Byte.x00 (off - length c) ++ p
    ++ skipn (off + length p) c.

Definition File_Seek (off whence : Z) (f : File) : option error * File :=
  if closed f then (Some ErrClosed, f)
  else
    let base :=
      if whence =? 0 then Some 0
      else if whence =? 1 then Some (Z.of_nat (offset f))
      else if whence =? 2 then Some (Z.of_nat (length (contents f)))
      else None in
    match base with
    | None => (Some ErrInvalidSeek, f)
    | Some b =>
        if b + off <? 0 then (Some ErrInvalidSeek, f)
        else (None, mkFile (contents f) (Z.to_nat (b + off)) (closed f))
    end.

#[export] Instance File_Sink : Sink File := {|
  sink_Write := fun p f =>
    if closed f then (Some ErrClosed, f)
    else (None, mkFile (write_at (offset f) p (contents f))
                       (offset f + length p) (closed f));
  sink_Seek := Some File_Seek;
  sink_Close := Some (fun f =>
    if closed f then (Some ErrClosed, f)
    else (None, mkFile (contents f) (offset f) true))
|}.

(** A sink that is out of space for its next [failing] writes: each of
    them fails and stores nothing, later ones append. *)
Record Flaky : Type := mkFlaky {
  stored : list byte;
  failing : nat
}.

Definition ErrNoSpace : error := errExternal 4.

#[export] Instance Flaky_Sink : Sink Flaky := {|
  sink_Write := fun p f =>
    match failing f with
    | Datatypes.S k => (Some ErrNoSpace, mkFlaky (stored f) k)
    | O => (None, mkFlaky (stored f ++ p) O)
    end;
  sink_Seek := None;
  sink_Close := None
|}.

(** ** A sample of the parsers

    The theorems below hold for every instance of [Pion]. To run the model
    on concrete packets, this instance reads a VP8 payload descriptor made
    of its one mandatory byte (bit [0x10] is [S]; the extension bit [0x80]
    is refused), and an AV1 payload as one aggregation-header byte followed
    by one whole OBU. *)

Definition sample_VP8_Unmarshal (payload : list byte) : error + VP8Packet :=
  match payload with
  | [] => inl errShortPacket
  | d :: rest =>
      if Z.land (Z_of_byte d) 128 =? 0 then
        match rest with
        | [] => inl errShortPacket
        | _ => inr (mkVP8Packet (Z.shiftr (Z.land (Z_of_byte d) 16) 4) rest)
        end
      else inl errShortPacket
  end.

Definition sample_AV1_Unmarshal (payload : list byte) : error + list byte :=
  match payload with
  | _ :: ((_ :: _) as obu) => inr obu
  | _ => inl errShortPacket
  end.

#[export] Instance sample_Pion : Pion := {|
  VP8Packet_Unmarshal := sample_VP8_Unmarshal;
  AV1Packet := list byte;
  AV1Packet_Unmarshal := sample_AV1_Unmarshal;
  AV1 := unit;
  AV1_zero := tt;
  AV1_ReadFrames := fun obu st => (inr [obu], st)
|}.

(** ** The header as the container format lays it out *)

(** Signature, version, header length, FOURCC, width, height, framerate
    numerator and denominator, frame count, reserved field. *)
Definition ivf_header (fourcc : string) (width height num den count : Z)
  : list byte :=
  list_byte_of_string "DKIF" ++ le_bytes 2 0 ++ le_bytes 2 32
    ++ list_byte_of_string fourcc
    ++ le_bytes 2 width ++ le_bytes 2 height
    ++ le_bytes 4 num ++ le_bytes 4 den ++ le_bytes 4 count ++ le_bytes 4 0.

(** The codec-selection and clock-rate options the package exports. *)
Inductive exported_option {P : Pion} : Option -> Prop :=
| exported_WithCodec (mimeType : string) : exported_option (WithCodec mimeType)
| exported_WithClockRate (rate : Z) : exported_option (WithClockRate rate).

(** ** Vocabulary of the statements *)

Section Vocabulary.

Context {S : Type} {SK : Sink S} {P : Pion}.

(** The fields an exported option cannot reach, and the codec flags never
    both set. *)
Definition unstarted (i : IVFWriter) : Prop :=
  ioWriter i = Some the_sink /\ seenKeyFrame i = false
  /\ currentFrame i = None /\ frameCount i = 0
  /\ firstTimestamp i = 0 /\ lastTimestamp i = 0
  /\ isVP8 i && isAV1 i = false.

(** The codec default of [NewWith]. *)
Definition default_codec (i : IVFWriter) : IVFWriter :=
  if negb (isAV1 i) && negb (isVP8 i) then
    let i' := set_isVP8 true i in
    if clockRate i' =? 0 then set_clockRate defaultVP8ClockRate i' else i'
  else i.

(** A packet the parser accepts: [v] is what [Unmarshal] makes of it, and
    there is a first payload byte to look at. *)
Definition parsed (pv : Packet * VP8Packet) : Prop :=
  Payload (fst pv) <> []
  /\ VP8Packet_Unmarshal (Payload (fst pv)) = inr (snd pv)
  /\ vp8_Payload (snd pv) <> [].

(** The writer once packet [p] was appended to the frame buffer [acc]. *)
Definition buffering (i : IVFWriter) (p : Packet) (acc : list byte) : IVFWriter :=
  mkIVFWriter (ioWriter i) true (isVP8 i) (isAV1 i) (Some acc) (av1Frame i)
    (frameCount i) (clockRate i)
    (if seenKeyFrame i then firstTimestamp i else Timestamp p)
    (lastTimestamp i).

(** The writer once [writeFrame] took the buffer [acc]: the counter is
    bumped, the buffer is still there. *)
Definition pending (i : IVFWriter) (first : Packet) (acc : list byte) : IVFWriter :=
  mkIVFWriter (ioWriter i) true (isVP8 i) (isAV1 i) (Some acc) (av1Frame i)
    (uint64 (frameCount i + 1)) (clockRate i)
    (if seenKeyFrame i then firstTimestamp i else Timestamp first)
    (lastTimestamp i).

(** The writer once the frame is out: buffer cleared, [lastTimestamp] set. *)
Definition emitted (i : IVFWriter) (first last : Packet) : IVFWriter :=
  mkIVFWriter (ioWriter i) true (isVP8 i) (isAV1 i) None (av1Frame i)
    (uint64 (frameCount i + 1)) (clockRate i)
    (if seenKeyFrame i then firstTimestamp i else Timestamp first)
    (Timestamp last).

(** What the sink and the writer become when the frame [frame] goes out. *)
Definition emission (i : IVFWriter) (first last : Packet) (frame : list byte)
           (s : S) : res unit * World S :=
  let (e1, s1) := sink_Write (frameHeader frame (frameCount i)) s in
  match e1 with
  | Some err => (Err err, (pending i first frame, s1))
  | None =>
      let (e2, s2) := sink_Write frame s1 in
      match e2 with
      | Some err => (Err err, (pending i first frame, s2))
      | None => (Ok tt, (emitted i first last, s2))
      end
  end.

(** A packet in which no key frame can be observed: whatever the parser
    makes of it has indicator bit 1. *)
Definition no_keyframe (p : Packet) : Prop :=
  forall v, VP8Packet_Unmarshal (Payload p) = inr v ->
            keyframe_indicator (vp8_Payload v) = 1.

(** A computation that leaves both timestamps of the writer alone. *)
Definition stamps_kept {A} (m : M A) : Prop :=
  forall w : World S,
    firstTimestamp (fst (snd (m w))) = firstTimestamp (fst w)
    /\ lastTimestamp (fst (snd (m w))) = lastTimestamp (fst w).

(** A computation after which the sink is related by [R] to what it was. *)
Definition sink_keeps (R : S -> S -> Prop) {A} (m : M A) : Prop :=
  forall w : World S, R (snd w) (snd (snd (m w))).

End Vocabulary.

(** A pipe only grows. *)
Definition extends (s s' : Pipe) : Prop :=
  exists suffix, written s' = written s ++ suffix.

(** ** Vocabulary of the container layout *)

(** The chunks handed to [Write] by a run of frame slots that starts with
    the counter at [count]: a written frame gives its header and its
    bytes, a dropped one gives nothing and uses up a PTS. *)
Fixpoint slot_chunks (count : Z) (ops : list slot) : list (list byte) :=
  match ops with
  | [] => []
  | Written frame :: rest =>
      frameHeader frame count :: frame :: slot_chunks (uint64 (count + 1)) rest
  | Dropped :: rest => slot_chunks (uint64 (count + 1)) rest
  end.

(** The counter after [n] slots. *)
Fixpoint count_after (count : Z) (n : nat) : Z :=
  match n with
  | O => count
  | Datatypes.S k => count_after (uint64 (count + 1)) k
  end.

Section Chunks.

Context {S : Type} {SK : Sink S}.

(** The sink after the chunks were written one after the other, when no
    [Write] failed. *)
Fixpoint write_all (chunks : list (list byte)) (s : S) : option S :=
  match chunks with
  | [] => Some s
  | c :: rest =>
      match sink_Write c s with
      | (None, s') => write_all rest s'
      | (Some _, _) => None
      end
  end.

End Chunks.

(** An open file with the cursor at its end. *)
Definition at_end (f : File) : Prop :=
  closed f = false /\ offset f = length (contents f).

(** * Properties *)

(** ** Bytes *)

Lemma Z_of_byte_of_Z (v : Z) : Z_of_byte (byte_of_Z v) = v mod 256.
Proof.
  unfold Z_of_byte, byte_of_Z.
  assert (Hr : 0 <= v mod 256 < 256) by (apply Z.mod_pos_bound; lia).
  destruct (Byte.of_N (Z.to_N (v mod 256))) as [b|] eqn:E.
  - apply Byte.to_of_N in E. rewrite E. lia.
  - apply Byte.of_N_None_iff in E. lia.
Qed.

Lemma Z_of_byte_range (b : byte) : 0 <= Z_of_byte b < 256.
Proof.
  unfold Z_of_byte. pose proof (Byte.to_N_bounded b). lia.
Qed.

Lemma le_bytes_length (n : nat) (v : Z) : length (le_bytes n v) = n.
Proof.
  revert v. induction n as [|n IH]; intros v; simpl; [reflexivity|].
  now rewrite IH.
Qed.

(** Reading back [n] little-endian bytes gives the value modulo [256 ^ n]. *)
Lemma le_value_le_bytes (n : nat) (v : Z) :
  le_value (le_bytes n v) = v mod 256 ^ Z.of_nat n.
Proof.
  revert v. induction n as [|n IH]; intros v.
  - simpl. now rewrite Z.mod_1_r.
  - cbn [le_bytes le_value]. rewrite IH, Z_of_byte_of_Z.
    rewrite Nat2Z.inj_succ, Z.pow_succ_r by lia.
    rewrite Z.rem_mul_r by lia. reflexivity.
Qed.

Lemma make_length (n : nat) : length (make n) = n.
Proof. apply repeat_length. Qed.

Lemma copy_at_length (off : nat) (src buf : list byte) :
  length (copy_at off src buf) = length buf.
Proof.
  unfold copy_at. rewrite !length_app, !length_firstn, length_skipn. lia.
Qed.

(** ** Options and construction *)

Section Construction.

Context {S : Type} {SK : Sink S} {P : Pion}.

Lemma WithCodec_bound (mimeType : string) (i : IVFWriter) :
  isVP8 i || isAV1 i = true ->
  WithCodec mimeType i = (Some errCodecAlreadySet, i).
Proof. unfold WithCodec. now intros ->. Qed.

Lemma WithCodec_unknown (mimeType : string) (i : IVFWriter) :
  isVP8 i = false -> isAV1 i = false ->
  mimeType <> mimeTypeVP8 -> mimeType <> mimeTypeAV1 ->
  WithCodec mimeType i = (Some errNoSuchCodec, i).
Proof.
  intros Hv Ha Hn8 Hn1. unfold WithCodec. rewrite Hv, Ha. cbn [orb].
  apply String.eqb_neq in Hn8, Hn1. now rewrite Hn8, Hn1.
Qed.

Lemma last_default_irrelevant {A} (a : A) (l : list A) (d d' : A) :
  last (a :: l) d = last (a :: l) d'.
Proof.
  revert a. induction l as [|b l IH]; intros a; [reflexivity|].
  change (last (b :: l) d = last (b :: l) d'). apply IH.
Qed.

(** What a run of [WithClockRate] options leaves in the writer. *)
Lemma apply_opts_clock_rates (rates : list Z) (i : IVFWriter) :
  apply_opts (map WithClockRate rates) i
  = (None, set_clockRate (last rates (clockRate i)) i).
Proof.
  revert i. induction rates as [|r rates IH]; intros i.
  - now destruct i.
  - cbn [map apply_opts WithClockRate]. rewrite IH.
    destruct rates as [|r' rates]; [reflexivity|].
    change (clockRate (set_clockRate r i)) with r.
    now rewrite (last_default_irrelevant r' rates r (clockRate i)).
Qed.

Lemma exported_option_unstarted (o : Option) (i i' : IVFWriter) (e : option error) :
  exported_option o -> unstarted i -> o i = (e, i') -> unstarted i'.
Proof.
  intros Ho Hi Hr. destruct Ho as [m|r].
  - unfold WithCodec in Hr. unfold unstarted in *.
    destruct (isVP8 i) eqn:Ev, (isAV1 i) eqn:Ea; cbn [orb] in Hr;
      try (injection Hr as <- <-; rewrite Ev, Ea; exact Hi).
    destruct (String.eqb m mimeTypeVP8).
    + injection Hr as <- <-. cbn.
      destruct (clockRate i =? 0); cbn; rewrite Ea; tauto.
    + destruct (String.eqb m mimeTypeAV1); injection Hr as <- <-; cbn;
        rewrite ?Ev, ?Ea; tauto.
  - unfold WithClockRate in Hr. injection Hr as <- <-. exact Hi.
Qed.

Lemma apply_opts_unstarted (opts : list Option) (i i' : IVFWriter) (e : option error) :
  Forall exported_option opts -> unstarted i ->
  apply_opts opts i = (e, i') -> unstarted i'.
Proof.
  intros Ho. revert i. induction Ho as [|o opts Ho _ IH]; intros i Hi Hr.
  - injection Hr as <- <-. exact Hi.
  - cbn [apply_opts] in Hr. destruct (o i) as [[err|] i1] eqn:Eo.
    + injection Hr as <- <-. eapply exported_option_unstarted; eauto.
    + eapply IH; [|exact Hr]. eapply exported_option_unstarted; eauto.
Qed.

Lemma zero_unstarted : unstarted (set_ioWriter (Some the_sink) zero_IVFWriter).
Proof. repeat split. Qed.

Lemma default_codec_unstarted (i : IVFWriter) :
  unstarted i ->
  unstarted (default_codec i) /\ isVP8 (default_codec i) = negb (isAV1 (default_codec i)).
Proof.
  unfold unstarted, default_codec.
  destruct (isAV1 i) eqn:Ea, (isVP8 i) eqn:Ev; cbn; rewrite ?Ea, ?Ev;
    try tauto; try (intuition discriminate).
  destruct (clockRate i =? 0); cbn; rewrite ?Ea; tauto.
Qed.

(** The bytes [writeHeader] builds are the container's header layout with
    the placeholder fields. *)
Lemma fileHeader_layout (vp8 av1 : bool) :
  vp8 = negb av1 ->
  fileHeader vp8 av1
  = ivf_header (if vp8 then "VP80" else "AV01") 640 480 24 1 900.
Proof. destruct vp8, av1; intros H; try discriminate H; reflexivity. Qed.

(** Read back from that layout, the three fields [Close] may patch hold
    the placeholders. *)
Lemma ivf_header_placeholders (vp8 : bool) :
  let header := ivf_header (if vp8 then "VP80" else "AV01") 640 480 24 1 900 in
  le_value (firstn 4 (skipn 16 header)) = 24
  /\ le_value (firstn 4 (skipn 20 header)) = 1
  /\ le_value (firstn 4 (skipn 24 header)) = 900.
Proof. destruct vp8; repeat split. Qed.

(** What [NewWith] does once the options have run without an error and
    left [ioWriter] alone. *)
Lemma NewWith_after_opts (opts : list Option) (s : S) (i : IVFWriter) :
  apply_opts opts (set_ioWriter (Some the_sink) zero_IVFWriter) = (None, i) ->
  ioWriter i = Some the_sink ->
  let w := default_codec i in
  NewWith (Some the_sink) opts s
  = (let (e, s') := sink_Write (fileHeader (isVP8 w) (isAV1 w)) s in
     (match e with None => Ok w | Some err => Err err end, s')).
Proof.
  intros H Hio w. unfold NewWith. rewrite H. fold (default_codec i). fold w.
  assert (Hw : ioWriter w = Some the_sink).
  { subst w. unfold default_codec.
    destruct (negb (isAV1 i) && negb (isVP8 i)); [|exact Hio].
    cbn. now destruct (clockRate i =? 0). }
  unfold writeHeader, bind, get, on_sink. cbn [fst snd]. rewrite Hw.
  destruct (sink_Write (fileHeader (isVP8 w) (isAV1 w)) s) as [[e|] s'];
    reflexivity.
Qed.

(** [NewWith] with exported options that raise no error: one [Write] of
    the header layout. *)
Lemma NewWith_exported (opts : list Option) (s : S) (i : IVFWriter) :
  Forall exported_option opts ->
  apply_opts opts (set_ioWriter (Some the_sink) zero_IVFWriter) = (None, i) ->
  exists (w : IVFWriter) (header : list byte),
    header = ivf_header (if isVP8 w then "VP80" else "AV01") 640 480 24 1 900
    /\ length header = 32%nat
    /\ isVP8 w = negb (isAV1 w)
    /\ unstarted w
    /\ NewWith (Some the_sink) opts s
       = (let (e, s') := sink_Write header s in
          (match e with None => Ok w | Some err => Err err end, s')).
Proof.
  intros Ho H.
  pose proof (apply_opts_unstarted Ho zero_unstarted H) as Hi.
  destruct (default_codec_unstarted Hi) as [Hw Hflag].
  exists (default_codec i),
         (fileHeader (isVP8 (default_codec i)) (isAV1 (default_codec i))).
  split; [now apply fileHeader_layout|].
  split; [now destruct (isVP8 (default_codec i)), (isAV1 (default_codec i))|].
  split; [exact Hflag|]. split; [exact Hw|].
  apply NewWith_after_opts; [exact H|apply Hi].
Qed.

End Construction.

(** C8. [NewWith] on a nil sink fails with [errFileNotOpened] and leaves
    the sink alone. On a non-nil sink, once the exported options have run
    without an error, it hands the sink one [Write] of 32 bytes: the
    signature "DKIF", version 0 and header length 32 on 16 bits, the FOURCC
    "VP80" when VP8 is bound and "AV01" when AV1 is bound (exactly one is),
    width 640 and height 480 on 16 bits, numerator 24, denominator 1, frame
    count 900 and a zero reserved field on 32 bits, all little-endian; the
    result is the writer, or the error of that [Write]. *)
Theorem NewWith_writes_header :
  forall (S : Type) (SK : Sink S) (P : Pion)
         (opts : list Option) (s : S) (i : IVFWriter),
    Forall exported_option opts ->
    apply_opts opts (set_ioWriter (Some the_sink) zero_IVFWriter) = (None, i) ->
    NewWith None opts s = (Err errFileNotOpened, s)
    /\ exists (w : IVFWriter) (header : list byte),
         header = ivf_header (if isVP8 w then "VP80" else "AV01")
                             640 480 24 1 900
         /\ length header = 32%nat
         /\ isVP8 w = negb (isAV1 w)
         /\ NewWith (Some the_sink) opts s
            = (let (e, s') := sink_Write header s in
               (match e with None => Ok w | Some err => Err err end, s')).
Proof.
  intros S SK P opts s i Ho H. split; [reflexivity|].
  destruct (NewWith_exported s Ho H) as (w & header & Hh & Hl & Hf & _ & HN).
  exists w, header. auto.
Qed.

Lemma NewWith_writes_header_witness :
  let opts := [WithCodec mimeTypeAV1] in
  let s := mkPipe [] false in
  let i := set_isAV1 true (set_ioWriter (Some the_sink) zero_IVFWriter) in
  Forall exported_option opts
  /\ apply_opts opts (set_ioWriter (Some the_sink) zero_IVFWriter) = (None, i)
  /\ NewWith None opts s = (Err errFileNotOpened, s)
  /\ exists (w : IVFWriter) (header : list byte),
       header = ivf_header (if isVP8 w then "VP80" else "AV01")
                           640 480 24 1 900
       /\ length header = 32%nat
       /\ isVP8 w = negb (isAV1 w)
       /\ NewWith (Some the_sink) opts s
          = (let (e, s') := sink_Write header s in
             (match e with None => Ok w | Some err => Err err end, s')).
Proof.
  intros opts s i.
  assert (Ho : Forall exported_option opts) by (repeat constructor).
  assert (Ha : apply_opts opts (set_ioWriter (Some the_sink) zero_IVFWriter)
               = (None, i)) by reflexivity.
  split; [exact Ho|]. split; [exact Ha|].
  exact (@NewWith_writes_header Pipe _ sample_Pion opts s i Ho Ha).
Defined.

(** C9. A codec is bound once: [WithCodec] on a writer that has a codec
    fails with [errCodecAlreadySet], so it does after any [WithCodec] that
    succeeded; on a writer without a codec, a mime type that is neither
    "video/VP8" nor "video/AV1" fails with [errNoSuchCodec]; and [NewWith]
    with clock-rate options only binds VP8, with the default clock rate
    90000 unless the last option set a non-zero one. *)
Theorem codec_bound_once :
  forall (S : Type) (SK : Sink S) (P : Pion)
         (mimeType : string) (i : IVFWriter) (rates : list Z) (s : S),
    (isVP8 i || isAV1 i = true ->
     WithCodec mimeType i = (Some errCodecAlreadySet, i))
    /\ (forall (first : string) (i0 : IVFWriter),
          WithCodec first i0 = (None, i) ->
          WithCodec mimeType i = (Some errCodecAlreadySet, i))
    /\ (isVP8 i = false -> isAV1 i = false ->
        mimeType <> mimeTypeVP8 -> mimeType <> mimeTypeAV1 ->
        WithCodec mimeType i = (Some errNoSuchCodec, i))
    /\ (forall (w : IVFWriter) (s' : S),
          NewWith (Some the_sink) (map WithClockRate rates) s = (Ok w, s') ->
          isVP8 w = true /\ isAV1 w = false
          /\ clockRate w = (if last rates 0 =? 0 then defaultVP8ClockRate
                            else last rates 0)).
Proof.
  intros S SK P mimeType i rates s.
  split; [apply WithCodec_bound|].
  split.
  { intros first i0 H. apply WithCodec_bound. unfold WithCodec in H.
    destruct (isVP8 i0 || isAV1 i0); [discriminate H|].
    destruct (String.eqb first mimeTypeVP8).
    - injection H as <-. cbn. now destruct (clockRate i0 =? 0).
    - destruct (String.eqb first mimeTypeAV1); [|discriminate H].
      injection H as <-. cbn. apply orb_true_r. }
  split; [apply WithCodec_unknown|].
  intros w s' H.
  pose proof (apply_opts_clock_rates rates
                (set_ioWriter (Some the_sink) zero_IVFWriter)) as Ha.
  rewrite (NewWith_after_opts _ s Ha eq_refl) in H.
  cbv zeta in H.
  destruct (sink_Write _ s) as [[e|] s1]; [discriminate H|].
  injection H as <- _. unfold default_codec. cbn.
  destruct (last rates 0 =? 0); cbn; auto.
Qed.

Lemma codec_bound_once_witness :
  let bound := set_isVP8 true (set_ioWriter (Some the_sink) zero_IVFWriter) in
  WithCodec (P := sample_Pion) mimeTypeAV1 bound = (Some errCodecAlreadySet, bound)
  /\ WithCodec (P := sample_Pion) "video/H264" zero_IVFWriter
     = (Some errNoSuchCodec, zero_IVFWriter)
  /\ exists (w : IVFWriter) (s' : Pipe),
       NewWith (Some the_sink) (map WithClockRate [48000; 0]) (mkPipe [] false)
       = (Ok w, s')
       /\ isVP8 w = true /\ isAV1 w = false /\ clockRate w = 90000.
Proof.
  intros bound.
  split.
  { exact (proj1 (@codec_bound_once Pipe _ sample_Pion mimeTypeAV1 bound
                    [] (mkPipe [] false)) eq_refl). }
  split.
  { refine (proj1 (proj2 (proj2 (@codec_bound_once Pipe _ sample_Pion
              "video/H264" zero_IVFWriter [] (mkPipe [] false))))
              eq_refl eq_refl _ _); discriminate. }
  pose proof (proj2 (proj2 (proj2 (@codec_bound_once Pipe _ sample_Pion
                mimeTypeAV1 bound [48000; 0] (mkPipe [] false))))) as H.
  destruct (NewWith (Some the_sink) (map WithClockRate [48000; 0])
              (mkPipe [] false)) as [[w|e|] s'] eqn:E.
  - exists w, s'. split; [reflexivity|]. exact (H w s' eq_refl).
  - vm_compute in E. discriminate E.
  - vm_compute in E. discriminate E.
Defined.

(** ** Packets with nothing in them *)

(** C10. On an open writer, [WriteRTP] of a packet with an empty payload
    returns nil and changes nothing: the writer (frame buffer, key-frame
    flag, timestamps, frame counter and the rest) and the sink are as they
    were, and no parser is called. *)
Theorem WriteRTP_empty_payload :
  forall (S : Type) (SK : Sink S) (P : Pion) (w : World S) (packet : Packet),
    ioWriter (fst w) <> None ->
    Payload packet = [] ->
    WriteRTP (Some packet) w = (Ok tt, w).
Proof.
  intros S SK P w packet Hopen Hp.
  unfold WriteRTP, bind, get. destruct (ioWriter (fst w)); [|congruence].
  rewrite Hp. reflexivity.
Qed.

Lemma WriteRTP_empty_payload_witness :
  let i := set_currentFrame (Some [Byte.x10])
             (set_ioWriter (Some the_sink) (zero_IVFWriter (P := sample_Pion))) in
  let w := (i, mkPipe [] false) in
  WriteRTP (Some (mkPacket [] true 7)) w = (Ok tt, w).
Proof.
  intros i w.
  refine (@WriteRTP_empty_payload Pipe _ sample_Pion w (mkPacket [] true 7) _ eq_refl).
  discriminate.
Defined.

(** ** Finalisation *)

Section Finalisation.

Context {S : Type} {SK : Sink S} {P : Pion}.
Variable GetBestMatch : float -> Z * Z.

(** [Close] on a writer that has no sink does nothing. *)
Lemma Close_released (w : World S) :
  ioWriter (fst w) = None -> Close GetBestMatch w = (Ok tt, w).
Proof. intros H. unfold Close, bind, get. now rewrite H. Qed.

(** Whatever it returns, [Close] leaves the writer without a sink. *)
Lemma Close_releases (w : World S) :
  ioWriter (fst (snd (Close GetBestMatch w))) = None.
Proof.
  unfold Close, bind, get. destruct (ioWriter (fst w)) eqn:E.
  - match goal with |- context [let (_, _) := ?b in _] => destruct b end.
    reflexivity.
  - exact E.
Qed.

(** [Close] on an open writer, step by step. *)
Lemma Close_open (i : IVFWriter) (s : S) :
  ioWriter i <> None ->
  Close GetBestMatch (i, s)
  = let released := set_ioWriter None i in
    let finish (s : S) :=
      match sink_Close with
      | Some close => let (e, s') := close s in (res_of_error e, (released, s'))
      | None => (Ok tt, (released, s))
      end in
    match sink_Seek with
    | Some seek =>
        let (e1, s1) := seek 16 0 s in
        match e1 with
        | Some err => (Err err, (released, s1))
        | None =>
            let (e2, s2) := sink_Write (patch GetBestMatch i) s1 in
            match e2 with
            | Some err => (Err err, (released, s2))
            | None => finish s2
            end
        end
    | None => finish s
    end.
Proof.
  intros Hopen. destruct (ioWriter i) as [r|] eqn:E; [|congruence].
  unfold Close, bind, get, on_sink, ret.
  cbv beta iota zeta delta [fst snd]. rewrite E.
  destruct sink_Seek as [seek|].
  - rewrite E. destruct (seek 16 0 s) as [[e1|] s1]; [reflexivity|].
    cbv beta iota delta [fst snd res_of_error]. rewrite E.
    destruct (sink_Write (patch GetBestMatch i) s1) as [[e2|] s2];
      [reflexivity|].
    cbv beta iota delta [fst snd res_of_error].
    destruct sink_Close as [close|]; [|reflexivity].
    rewrite E. destruct (close s2) as [[e3|] s3]; reflexivity.
  - destruct sink_Close as [close|]; [|reflexivity].
    rewrite E. destruct (close s) as [[e3|] s3]; reflexivity.
Qed.

End Finalisation.

(** C5. After a first [Close], whatever it returned, every further [Close]
    returns nil and changes neither the writer nor the sink: the sink
    holds after two calls, and after any number of them, what it held
    after one. *)
Theorem Close_idempotent :
  forall (S : Type) (SK : Sink S) (P : Pion) (GetBestMatch : float -> Z * Z)
         (w : World S) (n : nat),
    let once := snd (Close GetBestMatch w) in
    Close GetBestMatch once = (Ok tt, once)
    /\ snd (snd (Close GetBestMatch once)) = snd once
    /\ Nat.iter n (fun w => snd (Close GetBestMatch w)) once = once.
Proof.
  intros S SK P gbm w n once.
  assert (H : Close gbm once = (Ok tt, once))
    by (apply Close_released, Close_releases).
  split; [exact H|]. split; [now rewrite H|].
  induction n as [|n IH]; [reflexivity|].
  rewrite Nat.iter_succ, IH. now rewrite H.
Qed.

(** ** What the calls do to the sink *)

Create HintDb keeps.

(** A relation between sink states that every operation of the sink
    respects is respected by every call on the writer. *)
Section SinkRelation.

Context {S : Type} {SK : Sink S} {P : Pion}.
Variable GetBestMatch : float -> Z * Z.

Variable R : S -> S -> Prop.
Hypothesis R_refl : forall s, R s s.
Hypothesis R_trans : forall s1 s2 s3, R s1 s2 -> R s2 s3 -> R s1 s3.
Hypothesis R_Write : forall p s, R s (snd (sink_Write p s)).
Hypothesis R_Seek :
  forall seek, sink_Seek = Some seek -> forall a b s, R s (snd (seek a b s)).
Hypothesis R_Close :
  forall close, sink_Close = Some close -> forall s, R s (snd (close s)).

Local Abbreviation keeps := (sink_keeps R).

Lemma keeps_ret {A} (a : A) : keeps (ret a).
Proof. intros w. apply R_refl. Qed.

Lemma keeps_fail {A} (e : error) : keeps (fail (A := A) e).
Proof. intros w. apply R_refl. Qed.

Lemma keeps_panic {A} : keeps (panic (A := A)).
Proof. intros w. apply R_refl. Qed.

Lemma keeps_get : keeps get.
Proof. intros w. apply R_refl. Qed.

Lemma keeps_modify (f : IVFWriter -> IVFWriter) : keeps (modify f).
Proof. intros w. apply R_refl. Qed.

Lemma keeps_bind {A B} (m : M A) (k : A -> M B) :
  keeps m -> (forall a, keeps (k a)) -> keeps (bind m k).
Proof.
  intros Hm Hk w. unfold bind. specialize (Hm w).
  destruct (m w) as [[a|e|] w']; cbn [snd] in *; try exact Hm.
  eapply R_trans; [exact Hm|apply Hk].
Qed.

Lemma keeps_on_sink (op : S -> option error * S) :
  (forall s, R s (snd (op s))) -> keeps (on_sink op).
Proof.
  intros Hop w. unfold on_sink. destruct (ioWriter (fst w)); [|apply R_refl].
  specialize (Hop (snd w)). now destruct (op (snd w)).
Qed.

Local Hint Resolve keeps_ret keeps_fail keeps_panic keeps_get keeps_modify
  keeps_on_sink R_Write : keeps.

Ltac keeps_step :=
  match goal with
  | |- keeps (bind _ _) => apply keeps_bind; [|intros ?]
  | |- keeps (match ?x with _ => _ end) => destruct x
  | |- keeps _ => solve [auto with keeps]
  end.

Lemma keeps_writeFrame (frame : list byte) : keeps (writeFrame frame).
Proof. unfold writeFrame. repeat keeps_step. Qed.

Lemma keeps_writeFrames (obus : list (list byte)) : keeps (writeFrames obus).
Proof.
  induction obus as [|obu rest IH]; cbn [writeFrames].
  - apply keeps_ret.
  - apply keeps_bind; [apply keeps_writeFrame|intros _; exact IH].
Qed.

Local Hint Resolve keeps_writeFrame keeps_writeFrames : keeps.

Lemma keeps_WriteRTP (packet : option Packet) : keeps (WriteRTP packet).
Proof.
  unfold WriteRTP, WriteRTP_VP8, WriteRTP_AV1. repeat keeps_step.
Qed.

Lemma keeps_FrameDropped : keeps FrameDropped.
Proof. apply keeps_modify. Qed.

Lemma keeps_Close : keeps (Close GetBestMatch).
Proof.
  unfold Close. apply keeps_bind; [apply keeps_get|intros i].
  destruct (ioWriter i); [|apply keeps_ret].
  intros w.
  match goal with
  | |- context [let (_, _) := ?body w in _] =>
      assert (H : keeps body); [|specialize (H w); now destruct (body w)]
  end.
  repeat keeps_step; eauto using keeps_on_sink.
Qed.

Lemma keeps_do_call (c : call) : keeps (do_call GetBestMatch c).
Proof.
  destruct c; [apply keeps_WriteRTP|apply keeps_FrameDropped|apply keeps_Close].
Qed.

Lemma keeps_do_calls (calls : list call) (w : World S) :
  R (snd w) (snd (do_calls GetBestMatch calls w)).
Proof.
  revert w. induction calls as [|c calls IH]; intros w; cbn [do_calls].
  - apply R_refl.
  - pose proof (keeps_do_call c w) as Hc.
    destruct (do_call GetBestMatch c w) as [[[]|e|] w']; cbn [snd] in Hc;
      try exact Hc; eapply R_trans; eauto.
Qed.

End SinkRelation.

Lemma Pipe_calls_extend (P : Pion) (GetBestMatch : float -> Z * Z)
      (calls : list call) (w : World Pipe) :
  extends (snd w) (snd (do_calls GetBestMatch calls w)).
Proof.
  apply keeps_do_calls with (R := extends).
  - intros s. exists []. now rewrite app_nil_r.
  - intros s1 s2 s3 [a Ha] [b Hb]. exists (a ++ b).
    now rewrite Hb, Ha, app_assoc.
  - intros p s. cbn. destruct (shut s); cbn.
    + exists []. now rewrite app_nil_r.
    + now exists p.
  - intros seek H. discriminate H.
  - intros close H s. injection H as <-. destruct (shut s); cbn;
      exists []; now rewrite app_nil_r.
Qed.

(** C7. On a sink without [Seek], [Close] of an open writer neither seeks
    nor writes: it calls the sink's [Close] if there is one and returns its
    result, and returns nil otherwise, so the missing capability is no
    error. On a pipe, whatever calls were made between [NewWith] and
    [Close], the 32 bytes written at construction are still there after
    [Close], with numerator 24, denominator 1 and frame count 900. *)
Theorem Close_without_Seek :
  forall (S : Type) (SK : Sink S) (P : Pion) (GetBestMatch : float -> Z * Z),
    (forall (i : IVFWriter) (s : S),
        sink_Seek = None -> ioWriter i <> None ->
        Close GetBestMatch (i, s)
        = match sink_Close with
          | Some close =>
              let (e, s') := close s in
              (res_of_error e, (set_ioWriter None i, s'))
          | None => (Ok tt, (set_ioWriter None i, s))
          end)
    /\ (forall (opts : list Option) (calls : list call) (s0 s1 : Pipe)
               (w : IVFWriter),
          Forall exported_option opts ->
          NewWith (Some the_sink) opts s0 = (Ok w, s1) ->
          exists rest,
            written (snd (do_calls GetBestMatch (calls ++ [CallClose]) (w, s1)))
            = written s0
                ++ ivf_header (if isVP8 w then "VP80" else "AV01")
                              640 480 24 1 900
                ++ rest).
Proof.
  intros S SK P gbm. split.
  - intros i s Hseek Hopen. rewrite Close_open by exact Hopen.
    cbv zeta. now rewrite Hseek.
  - intros opts calls s0 s1 w Ho HN.
    destruct (apply_opts opts (set_ioWriter (Some the_sink) zero_IVFWriter))
      as [[e|] i] eqn:Ha.
    { unfold NewWith in HN. rewrite Ha in HN. discriminate HN. }
    destruct (NewWith_exported s0 Ho Ha)
      as (w' & header & Hh & _ & _ & _ & HN').
    rewrite HN in HN'. cbn in HN'.
    destruct (shut s0); [discriminate HN'|].
    injection HN' as <- ->.
    destruct (Pipe_calls_extend gbm (calls ++ [CallClose]) (w, mkPipe (written s0 ++ header) false))
      as [rest Hrest].
    exists rest. rewrite Hrest. cbn [snd written].
    now rewrite <- app_assoc, Hh.
Qed.

Lemma Close_without_Seek_witness :
  let gbm := fun _ : float => (30, 1) in
  let i := set_isVP8 true
             (set_ioWriter (Some the_sink) (zero_IVFWriter (P := sample_Pion))) in
  let calls :=
    [CallWriteRTP (Some (mkPacket [Byte.x10; Byte.x10; Byte.xaa] true 3000));
     CallFrameDropped] in
  Close gbm (i, mkPipe [] false)
  = (Ok tt, (set_ioWriter None i, mkPipe [] true))
  /\ match NewWith (Some the_sink) [] (mkPipe [] false) with
     | (Ok w, s1) =>
         exists rest,
           written (snd (do_calls gbm (calls ++ [CallClose]) (w, s1)))
           = [] ++ ivf_header (if isVP8 w then "VP80" else "AV01")
                              640 480 24 1 900
                ++ rest
     | _ => False
     end.
Proof.
  intros gbm i calls. split.
  - refine (proj1 (@Close_without_Seek Pipe _ sample_Pion gbm)
              i (mkPipe [] false) eq_refl _).
    discriminate.
  - destruct (NewWith (Some the_sink) [] (mkPipe [] false))
      as [[w|e|] s1] eqn:E.
    + exact (proj2 (@Close_without_Seek Pipe _ sample_Pion gbm)
               [] calls (mkPipe [] false) s1 w (Forall_nil _) E).
    + vm_compute in E. discriminate E.
    + vm_compute in E. discriminate E.
Defined.

(** C4 (as the code has it). [Close] has no guard for a zero timestamp
    span and signals no error for it. On an open writer with a seekable
    sink and [lastTimestamp = firstTimestamp], the divisor of the rate is
    the float 0, and [Close] still seeks to offset 16, writes the 12 bytes
    made of the pair [GetBestMatch] returns for that quotient and of the
    frame count, and calls the sink's [Close] if there is one; its result
    is the first error of these sink operations, and nil when there is
    none. *)
Theorem Close_zero_span_unguarded :
  forall (S : Type) (SK : Sink S) (P : Pion) (GetBestMatch : float -> Z * Z)
         (seek : Z -> Z -> S -> option error * S) (i : IVFWriter) (s : S),
    sink_Seek = Some seek ->
    ioWriter i <> None ->
    lastTimestamp i = firstTimestamp i ->
    float64 (uint32 (lastTimestamp i - firstTimestamp i)) = PrimFloat.zero
    /\ Close GetBestMatch (i, s)
       = let released := set_ioWriter None i in
         let (e1, s1) := seek 16 0 s in
         match e1 with
         | Some err => (Err err, (released, s1))
         | None =>
             let (e2, s2) := sink_Write (patch GetBestMatch i) s1 in
             match e2 with
             | Some err => (Err err, (released, s2))
             | None =>
                 match sink_Close with
                 | Some close =>
                     let (e3, s3) := close s2 in
                     (res_of_error e3, (released, s3))
                 | None => (Ok tt, (released, s2))
                 end
             end
         end.
Proof.
  intros S SK P gbm seek i s Hseek Hopen Hspan. split.
  - rewrite Hspan, Z.sub_diag. reflexivity.
  - rewrite Close_open by exact Hopen. cbv zeta. now rewrite Hseek.
Qed.

Lemma Close_zero_span_unguarded_witness :
  let gbm := fun _ : float => (30, 1) in
  let i :=
    set_lastTimestamp 3000 (set_firstTimestamp 3000 (set_frameCount 1
      (set_clockRate 90000 (set_isVP8 true
        (set_ioWriter (Some the_sink) (zero_IVFWriter (P := sample_Pion))))))) in
  let header := fileHeader true false in
  float64 (uint32 (lastTimestamp i - firstTimestamp i)) = PrimFloat.zero
  /\ Close gbm (i, mkFile header 32 false)
     = (Ok tt,
        (set_ioWriter None i,
         mkFile (firstn 16 header
                   ++ le_bytes 4 30 ++ le_bytes 4 1 ++ le_bytes 4 1
                   ++ skipn 28 header)
                28 true)).
Proof.
  intros gbm i header.
  refine (@Close_zero_span_unguarded File _ sample_Pion gbm File_Seek i
            (mkFile header 32 false) eq_refl _ eq_refl).
  discriminate.
Defined.

(** C4, refuted as stated. A VP8 session on a file receives one key frame
    in a single packet, so that [firstTimestamp = lastTimestamp = 3000] and
    one frame is counted. The rate [Close] computes is then [90000 * 1 / 0],
    the float infinity, and whatever [GetBestMatch] makes of it, [Close]
    returns nil: no error is signalled. *)
Lemma Close_zero_span_counterexample :
  match NewWith (P := sample_Pion) (Some the_sink) [] (mkFile [] 0 false) with
  | (Ok w, s) =>
      let w1 :=
        snd (WriteRTP (Some (mkPacket [Byte.x10; Byte.x10; Byte.xaa] true 3000))
               (w, s)) in
      lastTimestamp (fst w1) = firstTimestamp (fst w1)
      /\ frameCount (fst w1) = 1
      /\ rate (fst w1) = infinity
      /\ ~ (exists GetBestMatch : float -> Z * Z,
               fst (Close GetBestMatch w1) <> Ok tt)
  | _ => False
  end.
Proof.
  vm_compute.
  repeat split.
  intros [gbm H]. apply H. reflexivity.
Qed.

(** ** Frames and frame slots *)

Lemma frameHeader_layout (frame : list byte) (count : Z) :
  frameHeader frame count
  = le_bytes 4 (uint32 (Z.of_nat (length frame))) ++ le_bytes 8 count.
Proof. reflexivity. Qed.

(** The PTS field of a frame header: its bytes 4 to 11, little-endian. *)
Lemma frameHeader_PTS (frame : list byte) (count : Z) :
  le_value (firstn 8 (skipn 4 (frameHeader frame count))) = uint64 count.
Proof.
  rewrite frameHeader_layout.
  change (firstn 8 (skipn 4 (le_bytes 4 (uint32 (Z.of_nat (length frame)))
                               ++ le_bytes 8 count)))
    with (le_bytes 8 count).
  now rewrite le_value_le_bytes.
Qed.

Section Slots.

Context {S : Type} {SK : Sink S} {P : Pion}.

(** [writeFrame] on an open writer, step by step: the counter is bumped
    first, then the header goes out, then the frame. *)
Lemma writeFrame_open (frame : list byte) (w : World S) :
  ioWriter (fst w) <> None ->
  writeFrame frame w
  = let bumped := set_frameCount (uint64 (frameCount (fst w) + 1)) (fst w) in
    let (e1, s1) := sink_Write (frameHeader frame (frameCount (fst w))) (snd w) in
    match e1 with
    | Some err => (Err err, (bumped, s1))
    | None =>
        let (e2, s2) := sink_Write frame s1 in
        (res_of_error e2, (bumped, s2))
    end.
Proof.
  intros Hopen. destruct w as [i s]. cbn [fst snd] in *.
  destruct (ioWriter i) as [r|] eqn:E; [|congruence].
  unfold writeFrame, bind, get, modify, on_sink.
  cbv beta iota zeta delta [fst snd]. cbn [ioWriter set_frameCount]. rewrite E.
  destruct (sink_Write (frameHeader frame (frameCount i)) s) as [[e1|] s1];
    [reflexivity|].
  cbv beta iota delta [fst snd res_of_error]. cbn [ioWriter set_frameCount].
  rewrite E.
  destruct (sink_Write frame s1) as [[e2|] s2]; reflexivity.
Qed.

(** Each slot bumps the counter once, whatever the sink does. *)
Lemma use_slot_frameCount (o : slot) (w : World S) :
  frameCount (fst (snd (use_slot o w))) = uint64 (frameCount (fst w) + 1).
Proof.
  destruct w as [i s]. destruct o as [frame|]; [|reflexivity].
  unfold use_slot, writeFrame, bind, get, modify, on_sink.
  cbv beta iota zeta delta [fst snd]. cbn [ioWriter set_frameCount].
  destruct (ioWriter i); [|reflexivity].
  destruct (sink_Write (frameHeader frame (frameCount i)) s) as [[?|] t1];
    [reflexivity|].
  cbv beta iota delta [fst snd res_of_error]. cbn [ioWriter set_frameCount].
  destruct (ioWriter i); [|reflexivity].
  destruct (sink_Write frame t1) as [[?|] ?]; reflexivity.
Qed.

Lemma use_slots_frameCount (ops : list slot) (w : World S) :
  0 <= frameCount (fst w) < 2 ^ 64 ->
  frameCount (fst (use_slots ops w))
  = uint64 (frameCount (fst w) + Z.of_nat (length ops)).
Proof.
  revert w. induction ops as [|o ops IH]; intros w Hr.
  - cbn [use_slots length Z.of_nat]. unfold uint64.
    rewrite Z.add_0_r, Z.mod_small; [reflexivity|exact Hr].
  - cbn [use_slots]. rewrite IH.
    + rewrite use_slot_frameCount. unfold uint64.
      rewrite Zplus_mod_idemp_l. f_equal. cbn [length]. lia.
    + rewrite use_slot_frameCount. apply Z.mod_pos_bound. lia.
Qed.

End Slots.

(** C3. Take a fresh frame counter and any sequence of frame slots, each
    used by [writeFrame] or by [FrameDropped], with any outcome of the
    writes. The counter then equals the number of slots used, and a frame
    written next gets a 12-byte header whose PTS field (bytes 4 to 11,
    little-endian) is that number: the first thing [writeFrame] does on an
    open writer is to hand this header to the sink. *)
Theorem PTS_counts_slots :
  forall (S : Type) (SK : Sink S) (P : Pion)
         (ops : list slot) (frame : list byte) (w : World S),
    frameCount (fst w) = 0 ->
    Z.of_nat (length ops) < 2 ^ 64 ->
    let w1 := use_slots ops w in
    let header := frameHeader frame (Z.of_nat (length ops)) in
    frameCount (fst w1) = Z.of_nat (length ops)
    /\ length header = 12%nat
    /\ le_value (firstn 8 (skipn 4 header)) = Z.of_nat (length ops)
    /\ (ioWriter (fst w1) <> None ->
        writeFrame frame w1
        = let bumped :=
            set_frameCount (uint64 (Z.of_nat (length ops) + 1)) (fst w1) in
          let (e1, s1) := sink_Write header (snd w1) in
          match e1 with
          | Some err => (Err err, (bumped, s1))
          | None =>
              let (e2, s2) := sink_Write frame s1 in
              (res_of_error e2, (bumped, s2))
          end).
Proof.
  intros S SK P ops frame w H0 Hn w1 header.
  assert (Hc : frameCount (fst w1) = Z.of_nat (length ops)).
  { subst w1. rewrite use_slots_frameCount by (rewrite H0; lia).
    rewrite H0. unfold uint64. apply Z.mod_small. lia. }
  split; [exact Hc|]. split; [reflexivity|]. split.
  - subst header. rewrite frameHeader_PTS. unfold uint64.
    apply Z.mod_small. lia.
  - intros Hopen. rewrite (writeFrame_open frame w1 Hopen), Hc. reflexivity.
Qed.

Lemma PTS_counts_slots_witness :
  let w : World Pipe :=
    (set_isVP8 true (set_ioWriter (Some the_sink) (zero_IVFWriter (P := sample_Pion))),
     mkPipe [] false) in
  let ops := [Written [Byte.x01]; Dropped; Dropped; Written [Byte.x02; Byte.x03]] in
  let frame := [Byte.xaa] in
  let w1 := use_slots ops w in
  let header := frameHeader frame 4 in
  frameCount (fst w1) = 4
  /\ length header = 12%nat
  /\ le_value (firstn 8 (skipn 4 header)) = 4
  /\ writeFrame frame w1
     = (Ok tt,
        (set_frameCount 5 (fst w1),
         mkPipe (written (snd w1) ++ header ++ frame) false)).
Proof.
  intros w ops frame w1 header.
  destruct (@PTS_counts_slots Pipe _ sample_Pion ops frame w eq_refl eq_refl)
    as (H1 & H2 & H3 & H4).
  split; [exact H1|]. split; [exact H2|]. split; [exact H3|].
  apply H4. vm_compute. discriminate.
Defined.

(** ** VP8 frame assembly *)

Section VP8.

Context {S : Type} {SK : Sink S} {P : Pion}.

Lemma append_nonempty (cur : option (list byte)) (p : list byte) :
  p <> [] -> append cur p = Some (bytes_of cur ++ p).
Proof. destruct cur, p; intros H; try reflexivity; congruence. Qed.

Lemma keyframe_indicator_cons (b0 : byte) (rest : list byte) :
  Z.land (Z_of_byte b0) 1 = keyframe_indicator (b0 :: rest).
Proof. reflexivity. Qed.

Lemma keyframe_indicator_bit (payload : list byte) :
  keyframe_indicator payload = 0 \/ keyframe_indicator payload = 1.
Proof.
  destruct payload as [|b0 rest]; [now left|]. cbn [keyframe_indicator].
  assert (E : Z.land (Z_of_byte b0) 1 = Z_of_byte b0 mod 2)
    by (apply (Z.land_ones (Z_of_byte b0) 1); lia).
  rewrite E.
  assert (0 <= Z_of_byte b0 mod 2 < 2) by (apply Z.mod_pos_bound; lia). lia.
Qed.

(** The VP8 branch on an accepted packet, up to the marker test. *)
Lemma WriteRTP_accepts (i : IVFWriter) (s : S) (p : Packet) (v : VP8Packet) :
  isVP8 i = true -> ioWriter i <> None -> parsed (p, v) ->
  seenKeyFrame i = true \/ keyframe_indicator (vp8_Payload v) = 0 ->
  currentFrame i <> None \/ vp8_S v = 1 ->
  let acc := bytes_of (currentFrame i) ++ vp8_Payload v in
  WriteRTP (Some p) (i, s)
  = if Marker p
    then match writeFrame acc (buffering i p acc, s) with
         | (Ok _, (i', s')) =>
             (Ok tt, (set_currentFrame None
                        (set_lastTimestamp (Timestamp p) i'), s'))
         | other => other
         end
    else (Ok tt, (buffering i p acc, s)).
Proof.
  intros Hvp8 Hopen (Hp & Hu & Hv) Hkey Hstart acc. cbn [fst snd] in *.
  unfold WriteRTP, bind, get. cbv beta iota delta [fst snd].
  destruct (ioWriter i) as [r|] eqn:Eio; [|congruence].
  destruct (Payload p) as [|c cs] eqn:Ep; [congruence|].
  cbn [length Nat.eqb]. rewrite Hvp8.
  unfold WriteRTP_VP8, bind, get. cbv beta iota delta [fst snd].
  rewrite Ep, Hu.
  destruct (vp8_Payload v) as [|b0 rest] eqn:Ev; [congruence|].
  rewrite (keyframe_indicator_cons b0 rest).
  assert (Hk : negb (seenKeyFrame i) && (keyframe_indicator (b0 :: rest) =? 1)
               = false).
  { destruct Hkey as [-> | ->]; [reflexivity|]. apply andb_false_r. }
  rewrite Hk.
  assert (Hs : match currentFrame i with None => true | Some _ => false end
               && negb (vp8_S v =? 1) = false).
  { destruct Hstart as [Hc | ->]; [|apply andb_false_r].
    destruct (currentFrame i); [reflexivity|congruence]. }
  rewrite Hs.
  assert (Happ : forall cur, append cur (b0 :: rest)
                             = Some (bytes_of cur ++ b0 :: rest))
    by (intros cur; apply append_nonempty; discriminate).
  assert (Hlen : (length acc =? 0)%nat = false).
  { subst acc. rewrite length_app. cbn [length].
    apply Nat.eqb_neq. lia. }
  assert (Hb : (if seenKeyFrame i then set_currentFrame (Some acc) i
                else set_currentFrame (Some acc)
                       (set_firstTimestamp (Timestamp p)
                          (set_seenKeyFrame true i)))
               = buffering i p acc).
  { unfold buffering, set_currentFrame, set_firstTimestamp, set_seenKeyFrame.
    cbn. now destruct (seenKeyFrame i). }
  destruct (seenKeyFrame i) eqn:Eseen; cbn [negb];
    unfold modify, ret; cbv beta iota delta [fst snd];
    change (currentFrame (set_firstTimestamp (Timestamp p)
                            (set_seenKeyFrame true i)))
      with (currentFrame i);
    rewrite Happ; fold acc; rewrite Hb;
    (destruct (Marker p); cbn [negb]; [|reflexivity]);
    change (currentFrame (buffering i p acc)) with (Some acc);
    cbn [len bytes_of]; rewrite Hlen;
    destruct (writeFrame acc (buffering i p acc, s)) as [[[]|e|] [i' s']];
    reflexivity.
Qed.

Lemma bind_ret_tt (m : M unit) (w : World S) :
  bind m (fun _ => ret tt) w = m w.
Proof. unfold bind, ret. now destruct (m w) as [[[]|e|] w']. Qed.

(** The packet that carries the marker: the buffer and its payload go out
    as one frame. *)
Lemma WriteRTP_completes (j : IVFWriter) (s : S) (p : Packet) (v : VP8Packet) :
  isVP8 j = true -> ioWriter j <> None -> parsed (p, v) ->
  seenKeyFrame j = true \/ keyframe_indicator (vp8_Payload v) = 0 ->
  currentFrame j <> None \/ vp8_S v = 1 ->
  Marker p = true ->
  WriteRTP (Some p) (j, s)
  = emission j p p (bytes_of (currentFrame j) ++ vp8_Payload v) s.
Proof.
  intros Hvp8 Hopen Hparsed Hkey Hstart Hm.
  rewrite (@WriteRTP_accepts j s p v Hvp8 Hopen Hparsed Hkey Hstart). cbv zeta.
  rewrite Hm. set (acc := bytes_of (currentFrame j) ++ vp8_Payload v).
  rewrite writeFrame_open by exact Hopen.
  unfold emission. cbv zeta. cbn [fst snd].
  change (frameCount (buffering j p acc)) with (frameCount j).
  destruct (sink_Write (frameHeader acc (frameCount j)) s) as [[e1|] s1];
    [reflexivity|].
  destruct (sink_Write acc s1) as [[e2|] s2]; reflexivity.
Qed.

(** Packets without the marker, once a frame is under way, only grow the
    buffer. *)
Lemma feed_buffers (i : IVFWriter) (first : Packet) (s : S)
      (body : list (Packet * VP8Packet)) :
  isVP8 i = true -> ioWriter i <> None ->
  Forall parsed body ->
  Forall (fun pv => Marker (fst pv) = false) body ->
  forall (acc : list byte) (rest : list Packet),
    feed (map fst body ++ rest) (buffering i first acc, s)
    = feed rest
        (buffering i first
           (acc ++ concat (map (fun pv => vp8_Payload (snd pv)) body)), s).
Proof.
  intros Hvp8 Hopen Hparsed Hmarker.
  induction body as [|[p v] body IH]; intros acc rest.
  - cbn [map concat app]. now rewrite app_nil_r.
  - inversion Hparsed as [|? ? Hpv Hparsed']; subst.
    inversion Hmarker as [|? ? Hm Hmarker']; subst. cbn [fst snd] in *.
    cbn [map app feed fst]. unfold bind at 1.
    rewrite (@WriteRTP_accepts (buffering i first acc) s p v);
      [|exact Hvp8|exact Hopen|exact Hpv|now left|left; discriminate].
    cbv zeta. rewrite Hm.
    change (bytes_of (currentFrame (buffering i first acc))) with acc.
    change (buffering (buffering i first acc) p (acc ++ vp8_Payload v))
      with (buffering i first (acc ++ vp8_Payload v)).
    rewrite (IH Hparsed' Hmarker'). cbn [map concat snd].
    now rewrite app_assoc.
Qed.

End VP8.

(** C1. A VP8 writer with an empty frame buffer receives packets that the
    parser accepts: first a start-of-partition packet, at which the writer
    is in sync (a key frame was seen before, or this packet's indicator bit
    is 0), then any packets, all without the marker but the last one. Then
    [WriteRTP] returns nil on each packet before the last, and on the last
    one it hands the sink one frame header and then one frame, which is
    the concatenation, in arrival order, of the whole payloads the parser
    returned. When both writes succeed the frame buffer is nil again, the
    counter is one up and [lastTimestamp] is the last packet's timestamp
    (see [emission]). *)
Theorem VP8_frame_is_concatenation :
  forall (S : Type) (SK : Sink S) (P : Pion)
         (body : list (Packet * VP8Packet)) (last : Packet * VP8Packet)
         (i : IVFWriter) (s : S),
    let run := body ++ [last] in
    let first := hd last body in
    let frame := concat (map (fun pv => vp8_Payload (snd pv)) run) in
    isVP8 i = true -> ioWriter i <> None -> currentFrame i = None ->
    Forall parsed run ->
    Forall (fun pv => Marker (fst pv) = false) body ->
    Marker (fst last) = true ->
    vp8_S (snd first) = 1 ->
    seenKeyFrame i = true \/ keyframe_indicator (vp8_Payload (snd first)) = 0 ->
    feed (map fst run) (i, s) = emission i (fst first) (fst last) frame s.
Proof.
  intros S SK P body [pl vl] i s run first frame
         Hvp8 Hopen Hcur Hparsed Hmarker Hlast Hstart Hkey.
  subst run first frame. apply Forall_app in Hparsed as [Hbody Hl].
  inversion Hl as [|? ? Hpl _]; subst. cbn [fst snd] in *.
  destruct body as [|[p1 v1] body].
  - cbn [hd app map concat feed fst snd] in *.
    rewrite bind_ret_tt, app_nil_r.
    rewrite (@WriteRTP_completes _ _ _ i s pl vl);
      [|exact Hvp8|exact Hopen|exact Hpl|exact Hkey|now right|exact Hlast].
    now rewrite Hcur.
  - cbn [hd fst snd] in *.
    inversion Hbody as [|? ? Hp1 Hbody']; subst.
    inversion Hmarker as [|? ? Hm1 Hmarker']; subst. cbn [fst snd] in *.
    cbn [app map feed fst]. unfold bind at 1.
    rewrite (@WriteRTP_accepts _ _ _ i s p1 v1);
      [|exact Hvp8|exact Hopen|exact Hp1|exact Hkey|now right].
    cbv zeta. rewrite Hm1, Hcur. cbn [bytes_of app].
    rewrite map_app. cbn [map fst].
    rewrite (@feed_buffers _ _ _ i p1 s body Hvp8 Hopen Hbody' Hmarker').
    cbn [feed]. rewrite bind_ret_tt.
    rewrite (@WriteRTP_completes _ _ _ (buffering i p1 _) s pl vl);
      [|exact Hvp8|exact Hopen|exact Hpl|now left|left; discriminate
       |exact Hlast].
    cbn [currentFrame buffering bytes_of snd concat].
    rewrite map_app, concat_app. cbn [map concat snd].
    rewrite app_nil_r, <- app_assoc. reflexivity.
Qed.

Lemma VP8_frame_is_concatenation_witness :
  let i := set_isVP8 true
             (set_ioWriter (Some the_sink) (zero_IVFWriter (P := sample_Pion))) in
  let p1 := mkPacket [Byte.x10; Byte.x10; Byte.x01] false 3000 in
  let p2 := mkPacket [Byte.x00; Byte.x02; Byte.x03] true 3000 in
  let frame := [Byte.x10; Byte.x01; Byte.x02; Byte.x03] in
  feed [p1; p2] (i, mkPipe [] false)
  = (Ok tt,
     (mkIVFWriter (Some the_sink) true true false None tt 1 0 3000 3000,
      mkPipe (frameHeader frame 0 ++ frame) false)).
Proof.
  intros i p1 p2 frame.
  refine (@VP8_frame_is_concatenation Pipe _ sample_Pion
            [(p1, mkVP8Packet 1 [Byte.x10; Byte.x01])]
            (p2, mkVP8Packet 0 [Byte.x02; Byte.x03])
            i (mkPipe [] false) eq_refl _ eq_refl _ _ eq_refl eq_refl _).
  - discriminate.
  - repeat constructor; discriminate.
  - repeat constructor.
  - right. reflexivity.
Defined.

(** ** Before the first key frame *)

Section BeforeSync.

Context {S : Type} {SK : Sink S} {P : Pion}.

(** Before sync such a packet changes nothing; the call returns nil, or
    the error of the parser or of a released writer. *)
Lemma WriteRTP_before_sync (i : IVFWriter) (s : S) (p : Packet) :
  isVP8 i = true -> seenKeyFrame i = false -> no_keyframe p ->
  exists r, WriteRTP (Some p) (i, s) = (r, (i, s))
            /\ (r = Ok tt \/ exists e, r = Err e).
Proof.
  intros Hvp8 Hseen Hp. unfold WriteRTP, bind, get.
  cbv beta iota delta [fst snd].
  destruct (ioWriter i); [|eexists; split; [reflexivity|right; eauto]].
  destruct (length (Payload p) =? 0)%nat;
    [eexists; split; [reflexivity|now left]|].
  rewrite Hvp8. unfold WriteRTP_VP8, bind, get.
  cbv beta iota delta [fst snd]. unfold no_keyframe in Hp.
  destruct (VP8Packet_Unmarshal (Payload p)) as [e|v];
    [eexists; split; [reflexivity|right; eauto]|].
  specialize (Hp v eq_refl).
  destruct (vp8_Payload v) as [|b0 rest]; [discriminate Hp|].
  cbn [keyframe_indicator] in Hp. rewrite Hp, Hseen. cbn.
  eexists; split; [reflexivity|now left].
Qed.

Lemma feed_all_before_sync (packets : list Packet) (i : IVFWriter) (s : S) :
  isVP8 i = true -> seenKeyFrame i = false -> Forall no_keyframe packets ->
  feed_all packets (i, s) = (i, s).
Proof.
  intros Hvp8 Hseen Hps. induction Hps as [|p packets Hp _ IH];
    [reflexivity|].
  cbn [feed_all].
  destruct (@WriteRTP_before_sync i s p Hvp8 Hseen Hp)
    as (r & -> & [-> | [e ->]]);
    exact IH.
Qed.

End BeforeSync.

(** C2. A VP8 writer comes out of [NewWith] and receives packets in none
    of which a key frame is observed (whatever parses has indicator bit 1).
    Then every [WriteRTP] returns nil or the parser's error and changes
    nothing: no frame is written, the frame buffer stays nil, the counter
    stays 0, the writer stays out of sync, and the sink stays as the one
    [Write] of the 32-byte header at construction left it. *)
Theorem no_keyframe_no_frame :
  forall (S : Type) (SK : Sink S) (P : Pion)
         (opts : list Option) (packets : list Packet)
         (s0 s1 : S) (w : IVFWriter),
    Forall exported_option opts ->
    NewWith (Some the_sink) opts s0 = (Ok w, s1) ->
    isVP8 w = true ->
    Forall no_keyframe packets ->
    feed_all packets (w, s1) = (w, s1)
    /\ (forall p, In p packets ->
          exists r, WriteRTP (Some p) (w, s1) = (r, (w, s1))
                    /\ (r = Ok tt \/ exists e, r = Err e))
    /\ currentFrame w = None
    /\ frameCount w = 0
    /\ seenKeyFrame w = false
    /\ length (ivf_header "VP80" 640 480 24 1 900) = 32%nat
    /\ sink_Write (ivf_header "VP80" 640 480 24 1 900) s0 = (None, s1).
Proof.
  intros S SK P opts packets s0 s1 w Ho HN Hvp8 Hps.
  destruct (apply_opts opts (set_ioWriter (Some the_sink) zero_IVFWriter))
    as [[e|] i] eqn:Ha.
  { unfold NewWith in HN. rewrite Ha in HN. discriminate HN. }
  destruct (NewWith_exported s0 Ho Ha)
    as (w' & header & Hh & _ & _ & Hun & HN').
  rewrite HN in HN'.
  destruct (sink_Write header s0) as [[e|] s1'] eqn:Ew; [discriminate HN'|].
  injection HN' as <- <-. rewrite Hvp8 in Hh. subst header.
  destruct Hun as (_ & Hseen & Hcur & Hcount & _).
  split; [now apply feed_all_before_sync|].
  split.
  { intros p Hin. apply WriteRTP_before_sync; try assumption.
    now apply (proj1 (Forall_forall _ _) Hps). }
  repeat split; assumption.
Qed.

Lemma no_keyframe_no_frame_witness :
  let packets :=
    [mkPacket [Byte.x10; Byte.x11; Byte.x01] true 3000;
     mkPacket [Byte.x80; Byte.x10; Byte.x01] true 6000;
     mkPacket [] false 9000;
     mkPacket [Byte.x00; Byte.x03] true 9000] in
  match NewWith (P := sample_Pion) (Some the_sink) [] (mkPipe [] false) with
  | (Ok w, s1) =>
      feed_all packets (w, s1) = (w, s1)
      /\ frameCount w = 0
      /\ written s1 = ivf_header "VP80" 640 480 24 1 900
  | _ => False
  end.
Proof.
  intros packets.
  assert (Hps : Forall (no_keyframe (P := sample_Pion)) packets).
  { repeat constructor; intros v H; vm_compute in H;
      try discriminate H; injection H as <-; reflexivity. }
  destruct (NewWith (P := sample_Pion) (Some the_sink) [] (mkPipe [] false))
    as [[w|e|] s1] eqn:E.
  - assert (Hvp8 : isVP8 w = true)
      by (vm_compute in E; injection E as <- _; reflexivity).
    destruct (@no_keyframe_no_frame Pipe _ sample_Pion [] packets
                (mkPipe [] false) s1 w (Forall_nil _) E Hvp8 Hps)
      as (H1 & _ & _ & H2 & _ & _ & H3).
    split; [exact H1|]. split; [exact H2|].
    cbn in H3. injection H3 as <-. reflexivity.
  - vm_compute in E. discriminate E.
  - vm_compute in E. discriminate E.
Defined.

(** ** Timestamps on the AV1 path *)

Section Stamps.

Context {S : Type} {SK : Sink S} {P : Pion}.

Local Abbreviation keeps_stamps := (stamps_kept (S := S)).

Lemma stamps_ret {A} (a : A) : keeps_stamps (ret a).
Proof. now intros w. Qed.

Lemma stamps_fail {A} (e : error) : keeps_stamps (fail (A := A) e).
Proof. now intros w. Qed.

Lemma stamps_get : keeps_stamps get.
Proof. now intros w. Qed.

Lemma stamps_on_sink (op : S -> option error * S) : keeps_stamps (on_sink op).
Proof.
  intros w. unfold on_sink. destruct (ioWriter (fst w)); [|now split].
  now destruct (op (snd w)).
Qed.

Lemma stamps_set_frameCount (c : IVFWriter -> Z) :
  keeps_stamps (modify (fun i => set_frameCount (c i) i)).
Proof. now intros w. Qed.

Lemma stamps_set_av1Frame (st : AV1) : keeps_stamps (modify (set_av1Frame st)).
Proof. now intros w. Qed.

Lemma stamps_bind {A B} (m : M A) (k : A -> M B) :
  keeps_stamps m -> (forall a, keeps_stamps (k a)) -> keeps_stamps (bind m k).
Proof.
  intros Hm Hk w. unfold bind. destruct (Hm w) as [H1 H2].
  destruct (m w) as [[a|e|] w']; cbn [snd] in *; try (now split).
  destruct (Hk a w') as [H3 H4]. split; congruence.
Qed.

Lemma stamps_writeFrame (frame : list byte) : keeps_stamps (writeFrame frame).
Proof.
  unfold writeFrame. apply stamps_bind; [apply stamps_get|intros i].
  apply stamps_bind; [now intros w|intros _].
  apply stamps_bind; [apply stamps_on_sink|intros _; apply stamps_on_sink].
Qed.

Lemma stamps_writeFrames (obus : list (list byte)) :
  keeps_stamps (writeFrames obus).
Proof.
  induction obus as [|obu rest IH]; cbn [writeFrames].
  - apply stamps_ret.
  - apply stamps_bind; [apply stamps_writeFrame|intros _; exact IH].
Qed.

Lemma stamps_WriteRTP_AV1 (packet : Packet) : keeps_stamps (WriteRTP_AV1 packet).
Proof.
  unfold WriteRTP_AV1.
  destruct (AV1Packet_Unmarshal (Payload packet)) as [e|av1Packet];
    [apply stamps_fail|].
  apply stamps_bind; [apply stamps_get|intros i].
  destruct (AV1_ReadFrames av1Packet (av1Frame i)) as [r st].
  apply stamps_bind; [apply stamps_set_av1Frame|intros _].
  destruct r as [e|obus]; [apply stamps_fail|apply stamps_writeFrames].
Qed.

End Stamps.

(** C6, on the AV1 path. When VP8 is not bound, [WriteRTP] never assigns
    [firstTimestamp] or [lastTimestamp], whatever the packet holds and
    however many frames it makes the writer emit. (On the VP8 path both are
    set: see [emission].) *)
Theorem AV1_leaves_timestamps :
  forall (S : Type) (SK : Sink S) (P : Pion)
         (packet : option Packet) (w : World S),
    isVP8 (fst w) = false ->
    let w' := snd (WriteRTP packet w) in
    firstTimestamp (fst w') = firstTimestamp (fst w)
    /\ lastTimestamp (fst w') = lastTimestamp (fst w).
Proof.
  intros S SK P packet w Hvp8 w'. subst w'.
  unfold WriteRTP, bind, get. cbv beta iota delta [fst snd].
  destruct w as [i s]. cbn [fst snd] in *.
  destruct (ioWriter i); [|now split].
  destruct packet as [packet|]; [|now split].
  destruct (length (Payload packet) =? 0)%nat; [now split|].
  rewrite Hvp8. destruct (isAV1 i); [|now split].
  apply (stamps_WriteRTP_AV1 packet (i, s)).
Qed.

(** An AV1 session on a pipe receives one packet with timestamp 4500 that
    holds one OBU: the frame is written and counted, and both timestamps
    are still 0. *)
Lemma AV1_leaves_timestamps_witness :
  match NewWith (P := sample_Pion) (Some the_sink) [WithCodec mimeTypeAV1]
                (mkPipe [] false) with
  | (Ok w, s) =>
      let packet := mkPacket [Byte.x00; Byte.xaa; Byte.xbb] true 4500 in
      let r := WriteRTP (Some packet) (w, s) in
      fst r = Ok tt
      /\ frameCount (fst (snd r)) = 1
      /\ written (snd (snd r))
         = written s ++ frameHeader [Byte.xaa; Byte.xbb] 0
                     ++ [Byte.xaa; Byte.xbb]
      /\ firstTimestamp (fst (snd r)) = 0
      /\ lastTimestamp (fst (snd r)) = 0
  | _ => False
  end.
Proof.
  destruct (NewWith (P := sample_Pion) (Some the_sink) [WithCodec mimeTypeAV1]
                    (mkPipe [] false)) as [[w|e|] s] eqn:E.
  - vm_compute in E. injection E as <- <-.
    intros packet r.
    destruct (@AV1_leaves_timestamps Pipe _ sample_Pion (Some packet)
                (set_isAV1 true (set_ioWriter (Some the_sink) zero_IVFWriter),
                 mkPipe (fileHeader false true) false) eq_refl)
      as [H1 H2].
    split; [reflexivity|]. split; [reflexivity|]. split; [reflexivity|].
    split; [exact H1|exact H2].
  - vm_compute in E. discriminate E.
  - vm_compute in E. discriminate E.
Defined.

(** * Further properties of the writer *)

(** ** The records a run of slots writes *)

Section Records.

Context {S : Type} {SK : Sink S} {P : Pion}.

Lemma count_after_uint64 (count : Z) (n : nat) :
  0 <= count < 2 ^ 64 ->
  count_after count n = uint64 (count + Z.of_nat n).
Proof.
  revert count. induction n as [|n IH]; intros count Hr.
  - cbn [count_after Z.of_nat]. unfold uint64.
    now rewrite Z.add_0_r, Z.mod_small.
  - cbn [count_after]. rewrite IH by (apply Z.mod_pos_bound; lia).
    unfold uint64. rewrite Zplus_mod_idemp_l. f_equal. lia.
Qed.

Lemma set_frameCount_same (i : IVFWriter) : set_frameCount (frameCount i) i = i.
Proof. now destruct i. Qed.

Lemma set_frameCount_twice (a b : Z) (i : IVFWriter) :
  set_frameCount a (set_frameCount b i) = set_frameCount a i.
Proof. reflexivity. Qed.

(** One frame whose two writes succeed. *)
Lemma writeFrame_written (frame : list byte) (i : IVFWriter) (s s' : S) :
  ioWriter i <> None ->
  write_all [frameHeader frame (frameCount i); frame] s = Some s' ->
  writeFrame frame (i, s)
  = (Ok tt, (set_frameCount (uint64 (frameCount i + 1)) i, s')).
Proof.
  intros Hopen Hw. rewrite writeFrame_open by exact Hopen.
  cbv zeta. cbn [fst snd write_all] in *.
  destruct (sink_Write (frameHeader frame (frameCount i)) s) as [[e1|] s1];
    [discriminate Hw|].
  destruct (sink_Write frame s1) as [[e2|] s2]; [discriminate Hw|].
  now injection Hw as <-.
Qed.

Lemma write_all_app (a b : list (list byte)) (s : S) :
  write_all (a ++ b) s
  = match write_all a s with
    | Some s' => write_all b s'
    | None => None
    end.
Proof.
  revert s. induction a as [|c a IH]; intros s; [reflexivity|].
  cbn [app write_all]. destruct (sink_Write c s) as [[e|] s']; [reflexivity|].
  apply IH.
Qed.

Lemma use_slots_written (ops : list slot) (i : IVFWriter) (s s' : S) :
  ioWriter i <> None ->
  write_all (slot_chunks (frameCount i) ops) s = Some s' ->
  use_slots ops (i, s)
  = (set_frameCount (count_after (frameCount i) (length ops)) i, s').
Proof.
  revert i s. induction ops as [|o ops IH]; intros i s Hopen Hw.
  - cbn in *. injection Hw as <-. now rewrite set_frameCount_same.
  - destruct o as [frame|]; cbn [use_slots use_slot slot_chunks length
                                 count_after] in *.
    + change (frameHeader frame (frameCount i) :: frame
                :: slot_chunks (uint64 (frameCount i + 1)) ops)
        with ([frameHeader frame (frameCount i); frame]
                ++ slot_chunks (uint64 (frameCount i + 1)) ops) in Hw.
      rewrite write_all_app in Hw.
      destruct (write_all [frameHeader frame (frameCount i); frame] s)
        as [s1|] eqn:E1; [|discriminate Hw].
      rewrite (@writeFrame_written frame i s s1 Hopen E1). cbn [snd].
      rewrite (IH (set_frameCount (uint64 (frameCount i + 1)) i) s1 Hopen Hw).
      reflexivity.
    + unfold FrameDropped, modify. cbn [fst snd].
      rewrite (IH (set_frameCount (uint64 (frameCount i + 1)) i) s Hopen Hw).
      reflexivity.
Qed.

End Records.

(** X1. On an open writer, a run of frame slots whose writes all succeed
    hands the sink, in order, one 12-byte header and the frame bytes for
    each written frame and nothing for a dropped one; the header of a
    frame carries as PTS the number of slots used before it, counted from
    the counter's value at the start, so a dropped slot leaves a gap in
    the PTS sequence. The counter ends [length ops] higher (modulo 2^64)
    and no other field of the writer changes. *)
Theorem slots_write_records :
  forall (S : Type) (SK : Sink S) (P : Pion)
         (ops : list slot) (i : IVFWriter) (s s' : S),
    ioWriter i <> None ->
    0 <= frameCount i < 2 ^ 64 ->
    write_all (slot_chunks (frameCount i) ops) s = Some s' ->
    use_slots ops (i, s)
    = (set_frameCount (uint64 (frameCount i + Z.of_nat (length ops))) i, s').
Proof.
  intros S SK P ops i s s' Hopen Hr Hw.
  rewrite (@use_slots_written _ _ _ ops i s s' Hopen Hw).
  now rewrite count_after_uint64.
Qed.

Lemma slots_write_records_witness :
  let i := set_frameCount 7
             (set_isVP8 true
                (set_ioWriter (Some the_sink) (zero_IVFWriter (P := sample_Pion)))) in
  let ops := [Written [Byte.x01]; Dropped; Written [Byte.x02; Byte.x03]] in
  use_slots ops (i, mkPipe [] false)
  = (set_frameCount 10 i,
     mkPipe (frameHeader [Byte.x01] 7 ++ [Byte.x01]
               ++ frameHeader [Byte.x02; Byte.x03] 9 ++ [Byte.x02; Byte.x03])
            false).
Proof.
  intros i ops.
  refine (@slots_write_records Pipe _ sample_Pion ops i (mkPipe [] false) _
            _ _ eq_refl).
  - discriminate.
  - cbn. lia.
Defined.

(** ** Finalising a file *)

Lemma patch_layout (P : Pion) (GetBestMatch : float -> Z * Z) (i : IVFWriter) :
  patch GetBestMatch i
  = le_bytes 4 (fst (GetBestMatch (rate i)))
      ++ le_bytes 4 (snd (GetBestMatch (rate i)))
      ++ le_bytes 4 (uint32 (frameCount i)).
Proof. unfold patch. now destruct (GetBestMatch (rate i)). Qed.

Lemma firstn_le_bytes (n : nat) (v : Z) (rest : list byte) :
  firstn n (le_bytes n v ++ rest) = le_bytes n v.
Proof.
  rewrite firstn_app, le_bytes_length, Nat.sub_diag.
  rewrite firstn_all2 by (rewrite le_bytes_length; lia).
  cbn [firstn]. apply app_nil_r.
Qed.

Lemma skipn_le_bytes (n : nat) (v : Z) (rest : list byte) :
  skipn n (le_bytes n v ++ rest) = rest.
Proof.
  rewrite skipn_app, le_bytes_length, Nat.sub_diag.
  rewrite skipn_all2 by (rewrite le_bytes_length; lia). reflexivity.
Qed.

Lemma write_at_end (p c : list byte) : write_at (length c) p c = c ++ p.
Proof.
  unfold write_at. rewrite firstn_all, Nat.sub_diag.
  rewrite skipn_all2 by lia. cbn [repeat app]. now rewrite app_nil_r.
Qed.

(** Overwriting inside a file keeps what is before and after. *)
Lemma write_at_inside (off : nat) (p c : list byte) :
  (off + length p <= length c)%nat ->
  write_at off p c = firstn off c ++ p ++ skipn (off + length p) c.
Proof.
  intros H. unfold write_at.
  replace (off - length c)%nat with O by lia. reflexivity.
Qed.

Lemma File_Write_at_end (p : list byte) (f : File) :
  at_end f ->
  sink_Write p f
  = (None, mkFile (contents f ++ p) (length (contents f ++ p)) false)
  /\ at_end (mkFile (contents f ++ p) (length (contents f ++ p)) false).
Proof.
  intros [Hc Ho]. cbn [sink_Write File_Sink].
  rewrite Hc, Ho, write_at_end, length_app.
  split; [reflexivity|]. split; cbn [closed offset contents];
    [reflexivity|now rewrite length_app].
Qed.

Lemma File_write_all_at_end (chunks : list (list byte)) (f : File) :
  at_end f ->
  write_all chunks f
  = Some (mkFile (contents f ++ concat chunks)
                 (length (contents f ++ concat chunks)) false).
Proof.
  revert f. induction chunks as [|c chunks IH]; intros f Hf.
  - cbn [write_all concat]. rewrite app_nil_r. destruct Hf as [Hc Ho].
    destruct f as [c o cl]. cbn in *. now subst.
  - cbn [write_all concat].
    destruct (File_Write_at_end c Hf) as [-> Hf'].
    rewrite (IH _ Hf'). cbn [contents]. now rewrite <- app_assoc.
Qed.

(** [Close] on an open file long enough to hold the patched fields. *)
Lemma Close_on_File (P : Pion) (GetBestMatch : float -> Z * Z)
      (i : IVFWriter) (f : File) :
  ioWriter i <> None ->
  closed f = false ->
  (28 <= length (contents f))%nat ->
  Close GetBestMatch (i, f)
  = (Ok tt,
     (set_ioWriter None i,
      mkFile (firstn 16 (contents f)
                ++ le_bytes 4 (fst (GetBestMatch (rate i)))
                ++ le_bytes 4 (snd (GetBestMatch (rate i)))
                ++ le_bytes 4 (uint32 (frameCount i))
                ++ skipn 28 (contents f))
             28 true)).
Proof.
  intros Hopen Hc Hlen.
  pose proof (patch_layout GetBestMatch i) as Hpatch.
  rewrite Close_open by exact Hopen. cbv zeta.
  cbn [sink_Seek sink_Write sink_Close File_Sink].
  unfold File_Seek. rewrite Hc. cbn [Z.eqb Z.add Z.ltb Z.compare].
  cbn [contents offset closed].
  rewrite write_at_inside
    by (rewrite Hpatch, !length_app, !le_bytes_length; cbn; lia).
  rewrite Hpatch at 1.
  replace (Z.to_nat 16 + length (patch GetBestMatch i))%nat with 28%nat
    by (rewrite Hpatch, !length_app, !le_bytes_length; reflexivity).
  change (Z.to_nat 16) with 16%nat.
  now rewrite <- !app_assoc.
Qed.

(** X2. [Close] on an open writer whose sink is an open file of at least 28
    bytes returns nil, closes the file and changes its bytes 16 to 27 only:
    they become, little-endian on 32 bits each, the pair [GetBestMatch]
    returned and the frame counter truncated to 32 bits. Everything before
    byte 16 and from byte 28 on is as it was, wherever the cursor stood. *)
Theorem Close_patches_bytes_16_to_27 :
  forall (P : Pion) (GetBestMatch : float -> Z * Z)
         (i : IVFWriter) (f : File),
    ioWriter i <> None ->
    closed f = false ->
    (28 <= length (contents f))%nat ->
    let num := fst (GetBestMatch (rate i)) in
    let den := snd (GetBestMatch (rate i)) in
    let after :=
      firstn 16 (contents f)
        ++ le_bytes 4 num ++ le_bytes 4 den ++ le_bytes 4 (uint32 (frameCount i))
        ++ skipn 28 (contents f) in
    Close GetBestMatch (i, f)
    = (Ok tt, (set_ioWriter None i, mkFile after 28 true))
    /\ length after = length (contents f)
    /\ le_value (firstn 4 (skipn 16 after)) = uint32 num
    /\ le_value (firstn 4 (skipn 20 after)) = uint32 den
    /\ le_value (firstn 4 (skipn 24 after)) = uint32 (frameCount i).
Proof.
  intros P gbm i f Hopen Hc Hlen num den after.
  assert (H16 : length (firstn 16 (contents f)) = 16%nat)
    by (rewrite length_firstn; lia).
  split.
  - now apply Close_on_File.
  - subst after. split.
    + rewrite !length_app, !le_bytes_length, H16, length_skipn. lia.
    + assert (Hskip : forall rest, skipn 16 (firstn 16 (contents f) ++ rest) = rest).
      { intros rest. rewrite skipn_app, H16, Nat.sub_diag.
        rewrite skipn_all2 by lia. reflexivity. }
      change (@skipn byte 24) with (@skipn byte (4 + (4 + 16))).
      change (@skipn byte 20) with (@skipn byte (4 + 16)).
      rewrite <- !skipn_skipn, !Hskip, !skipn_le_bytes, !firstn_le_bytes.
      rewrite !le_value_le_bytes. unfold uint32.
      change (256 ^ Z.of_nat 4) with (2 ^ 32).
      repeat split. apply Z.mod_mod. lia.
Qed.

Lemma Close_patches_bytes_16_to_27_witness :
  let gbm := fun _ : float => (30, 1) in
  let i :=
    set_lastTimestamp 9000 (set_frameCount 3 (set_clockRate 90000
      (set_isVP8 true
        (set_ioWriter (Some the_sink) (zero_IVFWriter (P := sample_Pion)))))) in
  let f := mkFile (fileHeader true false ++ [Byte.x01; Byte.x02]) 34 false in
  let after :=
    firstn 16 (fileHeader true false)
      ++ le_bytes 4 30 ++ le_bytes 4 1 ++ le_bytes 4 3
      ++ skipn 28 (fileHeader true false) ++ [Byte.x01; Byte.x02] in
  Close gbm (i, f) = (Ok tt, (set_ioWriter None i, mkFile after 28 true))
  /\ le_value (firstn 4 (skipn 24 after)) = 3.
Proof.
  intros gbm i f after.
  assert (Hopen : ioWriter i <> None) by discriminate.
  assert (Hlen : (28 <= length (contents f))%nat) by (cbn; lia).
  destruct (@Close_patches_bytes_16_to_27 sample_Pion gbm i f Hopen eq_refl Hlen)
    as (H1 & _ & _ & _ & H5).
  split; [exact H1|exact H5].
Defined.

(** X3. A writer is made by [NewWith] on an empty file, any run of frame
    slots follows, then [Close]. With fewer than 2^64 slots, [Close]
    returns nil and the closed file holds exactly the 32-byte header, in
    which the rate is the pair [GetBestMatch] returned and the frame count
    is the number of slots (written and dropped, modulo 2^32), followed by
    the records of the written frames in order. *)
Theorem finished_file_layout :
  forall (P : Pion) (GetBestMatch : float -> Z * Z)
         (opts : list Option) (ops : list slot) (w : IVFWriter) (f1 : File),
    Forall exported_option opts ->
    NewWith (Some the_sink) opts (mkFile [] 0 false) = (Ok w, f1) ->
    Z.of_nat (length ops) < 2 ^ 64 ->
    let used := use_slots ops (w, f1) in
    let num := fst (GetBestMatch (rate (fst used))) in
    let den := snd (GetBestMatch (rate (fst used))) in
    frameCount (fst used) = Z.of_nat (length ops)
    /\ Close GetBestMatch used
       = (Ok tt,
          (set_ioWriter None (fst used),
           mkFile (ivf_header (if isVP8 w then "VP80" else "AV01") 640 480
                              num den (uint32 (Z.of_nat (length ops)))
                     ++ concat (slot_chunks 0 ops))
                  28 true)).
Proof.
  intros P gbm opts ops w f1 Ho HN Hn used num den.
  destruct (apply_opts opts (set_ioWriter (Some the_sink) zero_IVFWriter))
    as [[e|] i] eqn:Ha.
  { unfold NewWith in HN. rewrite Ha in HN. discriminate HN. }
  destruct (NewWith_exported (mkFile [] 0 false) Ho Ha)
    as (w' & header & Hh & Hl & _ & Hun & HN').
  assert (Hf : sink_Write header (mkFile [] 0 false)
               = (None, mkFile header 32 false)).
  { cbn [sink_Write File_Sink closed contents offset]. unfold write_at.
    rewrite skipn_nil, app_nil_r, Hl. reflexivity. }
  rewrite HN, Hf in HN'. injection HN' as Ew Ef. subst w' f1.
  destruct Hun as (Hio & _ & _ & Hcount & _).
  assert (Hopen : ioWriter w <> None) by (rewrite Hio; discriminate).
  assert (Hend : at_end (mkFile header 32 false))
    by (split; [reflexivity|cbn; now rewrite Hl]).
  assert (Hused : used
                  = (set_frameCount (Z.of_nat (length ops)) w,
                     mkFile (header ++ concat (slot_chunks 0 ops))
                            (length (header ++ concat (slot_chunks 0 ops)))
                            false)).
  { subst used.
    rewrite (@use_slots_written File _ P ops w (mkFile header 32 false) _ Hopen
               (eq_trans (f_equal (fun c => write_all (slot_chunks c ops) _)
                                  Hcount)
                         (File_write_all_at_end _ Hend))).
    rewrite Hcount, count_after_uint64 by lia. unfold uint64.
    rewrite Z.add_0_l, Z.mod_small by lia. reflexivity. }
  split; [now rewrite Hused|].
  subst num den. rewrite Hused. cbn [fst].
  rewrite Close_on_File;
    [|exact Hopen|reflexivity
     |cbn [contents]; rewrite length_app, Hl; lia].
  cbn [contents frameCount set_frameCount].
  do 3 f_equal. rewrite Hh.
  destruct (isVP8 w); reflexivity.
Qed.

Lemma finished_file_layout_witness :
  let gbm := fun _ : float => (30, 1) in
  let ops := [Written [Byte.x01]; Dropped] in
  match NewWith (P := sample_Pion) (Some the_sink) [] (mkFile [] 0 false) with
  | (Ok w, f1) =>
      let used := use_slots ops (w, f1) in
      Close gbm used
      = (Ok tt,
         (set_ioWriter None (fst used),
          mkFile (ivf_header "VP80" 640 480 30 1 2
                    ++ frameHeader [Byte.x01] 0 ++ [Byte.x01])
                 28 true))
  | _ => False
  end.
Proof.
  intros gbm ops.
  destruct (NewWith (P := sample_Pion) (Some the_sink) [] (mkFile [] 0 false))
    as [[w|e|] f1] eqn:E.
  - assert (Hn : Z.of_nat (length ops) < 2 ^ 64) by (cbn; lia).
    pose proof (proj2 (@finished_file_layout sample_Pion gbm [] ops w f1
                         (Forall_nil _) E Hn)) as H.
    vm_compute in E. injection E as <- <-. exact H.
  - vm_compute in E. discriminate E.
  - vm_compute in E. discriminate E.
Defined.

(** ** What no call changes *)

Section WriterRelation.

Context {S : Type} {SK : Sink S} {P : Pion}.
Variable GetBestMatch : float -> Z * Z.

(** A relation between writer states that holds across each assignment
    the methods make, in the circumstances in which they make it, holds
    across every run of calls. *)
Variable R : IVFWriter -> IVFWriter -> Prop.
Hypothesis R_refl : forall i, R i i.
Hypothesis R_trans : forall i1 i2 i3, R i1 i2 -> R i2 i3 -> R i1 i3.
Hypothesis R_count : forall i c, R i (set_frameCount c i).
Hypothesis R_sync :
  forall i ts, seenKeyFrame i = false ->
               R i (set_firstTimestamp ts (set_seenKeyFrame true i)).
Hypothesis R_buffer :
  forall i acc, seenKeyFrame i = true -> R i (set_currentFrame (Some acc) i).
Hypothesis R_emit :
  forall i ts, R i (set_currentFrame None (set_lastTimestamp ts i)).
Hypothesis R_av1 : forall i st, R i (set_av1Frame st i).
Hypothesis R_release : forall i, R i (set_ioWriter None i).

Lemma writeFrame_writer (frame : list byte) (i : IVFWriter) (s : S) :
  fst (snd (writeFrame frame (i, s)))
  = set_frameCount (uint64 (frameCount i + 1)) i.
Proof.
  unfold writeFrame, bind, get, modify, on_sink.
  cbv beta iota zeta delta [fst snd]. cbn [ioWriter set_frameCount].
  destruct (ioWriter i); [|reflexivity].
  destruct (sink_Write (frameHeader frame (frameCount i)) s) as [[?|] t1];
    [reflexivity|].
  cbv beta iota delta [fst snd res_of_error]. cbn [ioWriter set_frameCount].
  destruct (ioWriter i); [|reflexivity].
  destruct (sink_Write frame t1) as [[?|] ?]; reflexivity.
Qed.

Lemma R_writeFrame (frame : list byte) (w : World S) :
  R (fst w) (fst (snd (writeFrame frame w))).
Proof. destruct w as [i s]. rewrite writeFrame_writer. apply R_count. Qed.

Lemma R_writeFrames (obus : list (list byte)) (w : World S) :
  R (fst w) (fst (snd (writeFrames obus w))).
Proof.
  revert w. induction obus as [|obu rest IH]; intros w; [apply R_refl|].
  cbn [writeFrames]. unfold bind.
  pose proof (R_writeFrame obu w) as H.
  destruct (writeFrame obu w) as [[[]|e|] w']; cbn [snd] in *; try exact H.
  eapply R_trans; [exact H|apply IH].
Qed.

Lemma R_WriteRTP_VP8 (packet : Packet) (i : IVFWriter) (s : S) :
  R i (fst (snd (WriteRTP_VP8 packet (i, s)))).
Proof.
  unfold WriteRTP_VP8, bind, get. cbv beta iota delta [fst snd].
  destruct (VP8Packet_Unmarshal (Payload packet)) as [e|v]; [apply R_refl|].
  destruct (vp8_Payload v) as [|b0 rest] eqn:Ev; [apply R_refl|].
  destruct (negb (seenKeyFrame i) && (Z.land (Z_of_byte b0) 1 =? 1));
    [apply R_refl|].
  destruct (match currentFrame i with None => true | Some _ => false end
            && negb (vp8_S v =? 1)); [apply R_refl|].
  set (j := if seenKeyFrame i
            then i
            else set_firstTimestamp (Timestamp packet) (set_seenKeyFrame true i)).
  assert (Hij : R i j /\ seenKeyFrame j = true).
  { subst j. destruct (seenKeyFrame i) eqn:E; split; auto. }
  destruct Hij as [Hij Hj].
  set (acc := bytes_of (currentFrame j) ++ b0 :: rest).
  set (k := set_currentFrame (Some acc) j).
  assert (Hjk : R j k) by (apply R_buffer; exact Hj).
  assert (Hstep :
    (if negb (seenKeyFrame i)
     then modify (fun i0 => set_firstTimestamp (Timestamp packet)
                              (set_seenKeyFrame true i0))
     else ret tt) (i, s) = (Ok tt, (j, s))).
  { subst j. now destruct (seenKeyFrame i). }
  rewrite Hstep. unfold modify at 1. cbv beta iota delta [fst snd].
  rewrite append_nonempty by discriminate. fold acc. fold k.
  destruct (Marker packet); cbn [negb]; [|eapply R_trans; eassumption].
  unfold ret. cbv beta iota delta [fst snd].
  change (len (currentFrame k)) with (length acc).
  destruct (length acc =? 0)%nat; [eapply R_trans; eassumption|].
  change (bytes_of (currentFrame k)) with acc.
  pose proof (R_writeFrame acc (k, s)) as Hw. cbn [fst] in Hw.
  destruct (writeFrame acc (k, s)) as [[[]|e|] [i' s']]; cbn [fst snd] in *;
    try (eapply R_trans; [exact Hij|eapply R_trans; eassumption]).
  unfold modify. cbn [fst snd].
  eapply R_trans; [exact Hij|]. eapply R_trans; [exact Hjk|].
  eapply R_trans; [exact Hw|apply R_emit].
Qed.

Lemma R_WriteRTP_AV1 (packet : Packet) (i : IVFWriter) (s : S) :
  R i (fst (snd (WriteRTP_AV1 packet (i, s)))).
Proof.
  unfold WriteRTP_AV1.
  destruct (AV1Packet_Unmarshal (Payload packet)) as [e|av1Packet];
    [apply R_refl|].
  unfold bind, get. cbv beta iota delta [fst snd].
  destruct (AV1_ReadFrames av1Packet (av1Frame i)) as [r st].
  unfold modify. cbv beta iota delta [fst snd].
  destruct r as [e|obus]; [apply R_av1|].
  eapply R_trans; [apply (R_av1 i st)|].
  apply (R_writeFrames obus (set_av1Frame st i, s)).
Qed.

Lemma R_do_call (c : call) (w : World S) :
  R (fst w) (fst (snd (do_call GetBestMatch c w))).
Proof.
  destruct w as [i s]. destruct c as [packet| |]; cbn [do_call fst].
  - unfold WriteRTP, bind, get. cbv beta iota delta [fst snd].
    destruct (ioWriter i); [|apply R_refl].
    destruct packet as [packet|]; [|apply R_refl].
    destruct (length (Payload packet) =? 0)%nat; [apply R_refl|].
    destruct (isVP8 i); [apply R_WriteRTP_VP8|].
    destruct (isAV1 i); [apply R_WriteRTP_AV1|apply R_refl].
  - apply R_count.
  - destruct (ioWriter i) as [r|] eqn:E.
    + assert (Hopen : ioWriter i <> None) by congruence.
      rewrite (@Close_open _ _ _ GetBestMatch i s Hopen). cbv zeta.
      destruct sink_Seek as [seek|].
      * destruct (seek 16 0 s) as [[?|] s1]; [apply R_release|].
        destruct (sink_Write (patch GetBestMatch i) s1) as [[?|] s2];
          [apply R_release|].
        destruct sink_Close as [close|]; [|apply R_release].
        destruct (close s2); apply R_release.
      * destruct sink_Close as [close|]; [|apply R_release].
        destruct (close s); apply R_release.
    + rewrite Close_released by exact E. apply R_refl.
Qed.

Lemma R_do_calls (calls : list call) (w : World S) :
  R (fst w) (fst (do_calls GetBestMatch calls w)).
Proof.
  revert w. induction calls as [|c calls IH]; intros w; [apply R_refl|].
  cbn [do_calls]. pose proof (R_do_call c w) as Hc.
  destruct (do_call GetBestMatch c w) as [[[]|e|] w']; cbn [snd] in Hc;
    try exact Hc; eapply R_trans; eauto.
Qed.

End WriterRelation.

(** X4. The codec and the clock rate are fixed at construction: no run of
    [WriteRTP], [FrameDropped] and [Close] calls changes [isVP8], [isAV1]
    or [clockRate]. *)
Theorem codec_and_clock_rate_fixed :
  forall (S : Type) (SK : Sink S) (P : Pion) (GetBestMatch : float -> Z * Z)
         (calls : list call) (w : World S),
    let w' := do_calls GetBestMatch calls w in
    isVP8 (fst w') = isVP8 (fst w)
    /\ isAV1 (fst w') = isAV1 (fst w)
    /\ clockRate (fst w') = clockRate (fst w).
Proof.
  intros S SK P gbm calls w w'. subst w'.
  apply (R_do_calls gbm
           (fun i i' => isVP8 i' = isVP8 i /\ isAV1 i' = isAV1 i
                        /\ clockRate i' = clockRate i));
    try (intros; repeat split; reflexivity).
  intros i1 i2 i3 (A1 & A2 & A3) (B1 & B2 & B3). repeat split; congruence.
Qed.

(** X5. Sync happens once: when the key-frame flag is set it stays set
    through every run of calls, and [firstTimestamp] keeps the value it
    has. *)
Theorem sync_is_permanent :
  forall (S : Type) (SK : Sink S) (P : Pion) (GetBestMatch : float -> Z * Z)
         (calls : list call) (w : World S),
    seenKeyFrame (fst w) = true ->
    let w' := do_calls GetBestMatch calls w in
    seenKeyFrame (fst w') = true
    /\ firstTimestamp (fst w') = firstTimestamp (fst w).
Proof.
  intros S SK P gbm calls w Hseen w'. subst w'.
  refine (R_do_calls gbm
            (fun i i' => seenKeyFrame i = true ->
                         seenKeyFrame i' = true
                         /\ firstTimestamp i' = firstTimestamp i)
            _ _ _ _ _ _ _ _ calls w Hseen);
    try (intros; split; first [assumption|reflexivity]).
  - intros i1 i2 i3 H12 H23 H1. destruct (H12 H1) as [H2 E2].
    destruct (H23 H2) as [H3 E3]. split; congruence.
  - intros i ts Hf Ht. congruence.
Qed.

Lemma sync_is_permanent_witness :
  let i :=
    set_firstTimestamp 3000 (set_seenKeyFrame true (set_isVP8 true
      (set_ioWriter (Some the_sink) (zero_IVFWriter (P := sample_Pion))))) in
  let calls :=
    [CallWriteRTP (Some (mkPacket [Byte.x10; Byte.x10; Byte.xaa] true 6000));
     CallFrameDropped; CallClose;
     CallWriteRTP (Some (mkPacket [Byte.x10; Byte.x10; Byte.xaa] true 9000))] in
  let w' := do_calls (fun _ => (30, 1)) calls (i, mkPipe [] false) in
  seenKeyFrame (fst w') = true /\ firstTimestamp (fst w') = 3000.
Proof.
  intros i calls.
  exact (@sync_is_permanent Pipe _ sample_Pion (fun _ => (30, 1)) calls
           (i, mkPipe [] false) eq_refl).
Defined.

(** X6. Nothing is buffered before sync: if a writer whose key-frame flag
    is unset has a nil frame buffer (as after [NewWith]), this is still so
    after every run of calls. *)
Theorem nothing_buffered_before_sync :
  forall (S : Type) (SK : Sink S) (P : Pion) (GetBestMatch : float -> Z * Z)
         (calls : list call) (w : World S),
    (seenKeyFrame (fst w) = false -> currentFrame (fst w) = None) ->
    let w' := do_calls GetBestMatch calls w in
    seenKeyFrame (fst w') = false -> currentFrame (fst w') = None.
Proof.
  intros S SK P gbm calls w Hw w'. subst w'.
  refine (R_do_calls gbm
            (fun i i' => (seenKeyFrame i = false -> currentFrame i = None) ->
                         seenKeyFrame i' = false -> currentFrame i' = None)
            _ _ _ _ _ _ _ _ calls w Hw);
    try (intros; cbn in *; first [now auto|congruence]).
Qed.

Lemma nothing_buffered_before_sync_witness :
  let i := set_isVP8 true
             (set_ioWriter (Some the_sink) (zero_IVFWriter (P := sample_Pion))) in
  let calls :=
    [CallWriteRTP (Some (mkPacket [Byte.x10; Byte.x11; Byte.xaa] false 6000));
     CallWriteRTP (Some (mkPacket [Byte.x00; Byte.x10; Byte.xaa] false 6000));
     CallFrameDropped] in
  let w' := do_calls (fun _ => (30, 1)) calls (i, mkPipe [] false) in
  seenKeyFrame (fst w') = false /\ currentFrame (fst w') = None.
Proof.
  intros i calls w'.
  assert (Hseen : seenKeyFrame (fst w') = false) by reflexivity.
  split; [exact Hseen|].
  exact (@nothing_buffered_before_sync Pipe _ sample_Pion (fun _ => (30, 1))
           calls (i, mkPipe [] false) (fun _ => eq_refl) Hseen).
Defined.

(** ** A released writer *)

Section Released.

Context {S : Type} {SK : Sink S} {P : Pion}.
Variable GetBestMatch : float -> Z * Z.

Lemma WriteRTP_released (packet : option Packet) (w : World S) :
  ioWriter (fst w) = None ->
  WriteRTP packet w = (Err errFileNotOpened, w).
Proof. intros H. unfold WriteRTP, bind, get, fail. now rewrite H. Qed.

(** Calls on a writer without a sink never reach the sink; they can only
    move the frame counter. *)
Lemma released_calls (calls : list call) (i : IVFWriter) (s : S) :
  ioWriter i = None ->
  exists c, do_calls GetBestMatch calls (i, s) = (set_frameCount c i, s).
Proof.
  revert i. induction calls as [|c calls IH]; intros i Hi.
  - exists (frameCount i). cbn [do_calls]. now rewrite set_frameCount_same.
  - cbn [do_calls]. destruct c as [packet| |]; cbn [do_call].
    + rewrite WriteRTP_released by exact Hi. apply IH, Hi.
    + unfold FrameDropped, modify. cbn [fst snd].
      destruct (IH (set_frameCount (uint64 (frameCount i + 1)) i) Hi)
        as [c Hc].
      exists c. exact Hc.
    + rewrite Close_released by exact Hi. apply IH, Hi.
Qed.

End Released.

(** X7. Once [Close] has run, whatever it returned, the writer is inert:
    through every further run of calls the sink stays as [Close] left it
    and the writer changes in its frame counter only ([FrameDropped] still
    counts), and [WriteRTP] of any packet, nil included, returns
    [errFileNotOpened]. *)
Theorem closed_writer_is_inert :
  forall (S : Type) (SK : Sink S) (P : Pion) (GetBestMatch : float -> Z * Z)
         (calls : list call) (packet : option Packet) (w : World S),
    let finished := snd (Close GetBestMatch w) in
    let w' := do_calls GetBestMatch calls finished in
    snd w' = snd finished
    /\ (exists c, fst w' = set_frameCount c (fst finished))
    /\ WriteRTP packet w' = (Err errFileNotOpened, w').
Proof.
  intros S SK P gbm calls packet w finished w'.
  pose proof (Close_releases gbm w) as Hrel. fold finished in Hrel.
  destruct finished as [i s]. cbn [fst snd] in *.
  destruct (@released_calls _ _ _ gbm calls i s Hrel) as [c Hc].
  subst w'. rewrite Hc. cbn [fst snd].
  split; [reflexivity|]. split; [now exists c|].
  apply WriteRTP_released. exact Hrel.
Qed.

(** X8. When [Close] fails in [Seek] or in the [Write] of the patch, it
    returns that error without calling the sink's [Close], and the writer
    has let go of the sink all the same: no later call, [Close] included,
    reaches the sink, which stays as the failed operation left it. *)
Theorem failed_Close_never_closes_sink :
  forall (S : Type) (SK : Sink S) (P : Pion) (GetBestMatch : float -> Z * Z)
         (seek : Z -> Z -> S -> option error * S)
         (i : IVFWriter) (s : S) (calls : list call),
    sink_Seek = Some seek ->
    ioWriter i <> None ->
    (forall err s1,
        seek 16 0 s = (Some err, s1) ->
        Close GetBestMatch (i, s) = (Err err, (set_ioWriter None i, s1))
        /\ snd (do_calls GetBestMatch calls (set_ioWriter None i, s1)) = s1)
    /\ (forall err s1 s2,
          seek 16 0 s = (None, s1) ->
          sink_Write (patch GetBestMatch i) s1 = (Some err, s2) ->
          Close GetBestMatch (i, s) = (Err err, (set_ioWriter None i, s2))
          /\ snd (do_calls GetBestMatch calls (set_ioWriter None i, s2)) = s2).
Proof.
  intros S SK P gbm seek i s calls Hseek Hopen.
  assert (Hinert : forall t,
             snd (do_calls gbm calls (set_ioWriter None i, t)) = t).
  { intros t.
    destruct (@released_calls _ _ _ gbm calls (set_ioWriter None i) t eq_refl)
      as [c ->].
    reflexivity. }
  split.
  - intros err s1 H1. split; [|apply Hinert].
    rewrite Close_open by exact Hopen. cbv zeta. now rewrite Hseek, H1.
  - intros err s1 s2 H1 H2. split; [|apply Hinert].
    rewrite Close_open by exact Hopen. cbv zeta. now rewrite Hseek, H1, H2.
Qed.

Lemma failed_Close_never_closes_sink_witness :
  let gbm := fun _ : float => (30, 1) in
  let i := set_isVP8 true
             (set_ioWriter (Some the_sink) (zero_IVFWriter (P := sample_Pion))) in
  let f := mkFile (fileHeader true false) 32 true in
  Close gbm (i, f) = (Err ErrClosed, (set_ioWriter None i, f))
  /\ snd (do_calls gbm [CallClose; CallFrameDropped; CallClose]
            (set_ioWriter None i, f)) = f.
Proof.
  intros gbm i f.
  refine (proj1 (@failed_Close_never_closes_sink File _ sample_Pion gbm
                   File_Seek i f [CallClose; CallFrameDropped; CallClose]
                   eq_refl _)
            ErrClosed f eq_refl).
  discriminate.
Defined.

(** ** Packets that are not taken *)

(** X9. On an open writer, a non-empty packet that the parser of the bound
    codec refuses makes [WriteRTP] return the parser's error and changes
    neither writer nor sink. When the AV1 packet parses but [ReadFrames]
    fails, the error is returned, nothing is written or counted, and only
    the state of the AV1 frame assembler moves. *)
Theorem unparsable_packet_writes_nothing :
  forall (S : Type) (SK : Sink S) (P : Pion)
         (i : IVFWriter) (s : S) (packet : Packet),
    ioWriter i <> None ->
    Payload packet <> [] ->
    (forall e, isVP8 i = true ->
               VP8Packet_Unmarshal (Payload packet) = inl e ->
               WriteRTP (Some packet) (i, s) = (Err e, (i, s)))
    /\ (forall e, isVP8 i = false -> isAV1 i = true ->
                  AV1Packet_Unmarshal (Payload packet) = inl e ->
                  WriteRTP (Some packet) (i, s) = (Err e, (i, s)))
    /\ (forall av1Packet e st,
          isVP8 i = false -> isAV1 i = true ->
          AV1Packet_Unmarshal (Payload packet) = inr av1Packet ->
          AV1_ReadFrames av1Packet (av1Frame i) = (inl e, st) ->
          WriteRTP (Some packet) (i, s) = (Err e, (set_av1Frame st i, s))).
Proof.
  intros S SK P i s packet Hopen Hp.
  assert (Hhead : WriteRTP (Some packet) (i, s)
                  = (if isVP8 i then WriteRTP_VP8 packet
                     else if isAV1 i then WriteRTP_AV1 packet else ret tt)
                      (i, s)).
  { unfold WriteRTP, bind, get. cbv beta iota delta [fst snd].
    destruct (ioWriter i); [|congruence].
    destruct (Payload packet); [congruence|]. reflexivity. }
  rewrite Hhead.
  split; [|split].
  - intros e Hv Hu. rewrite Hv. unfold WriteRTP_VP8, bind, get.
    cbv beta iota delta [fst snd]. now rewrite Hu.
  - intros e Hv Ha Hu. rewrite Hv, Ha. unfold WriteRTP_AV1. now rewrite Hu.
  - intros av1Packet e st Hv Ha Hu Hr. rewrite Hv, Ha.
    unfold WriteRTP_AV1. rewrite Hu. unfold bind, get.
    cbv beta iota delta [fst snd]. now rewrite Hr.
Qed.

Lemma unparsable_packet_writes_nothing_witness :
  let i := set_isVP8 true
             (set_ioWriter (Some the_sink) (zero_IVFWriter (P := sample_Pion))) in
  let w := (i, mkPipe [] false) in
  WriteRTP (Some (mkPacket [Byte.x90; Byte.x01] true 3000)) w
  = (Err errShortPacket, w).
Proof.
  intros i w.
  refine (proj1 (@unparsable_packet_writes_nothing Pipe _ sample_Pion i
                   (mkPipe [] false) (mkPacket [Byte.x90; Byte.x01] true 3000)
                   _ _)
            errShortPacket eq_refl eq_refl); discriminate.
Defined.

(** X10. A frame cannot start in the middle of a partition: while the
    frame buffer of a VP8 writer is nil, packets whose parsed descriptor
    has [S] other than 1 are dropped one after the other, whether or not
    they belong to a key frame and whatever their marker, and they leave
    writer and sink as they were (so such a key-frame packet does not put
    the writer in sync). *)
Theorem mid_partition_packets_dropped :
  forall (S : Type) (SK : Sink S) (P : Pion)
         (packets : list Packet) (i : IVFWriter) (s : S),
    isVP8 i = true ->
    currentFrame i = None ->
    Forall (fun p => forall v, VP8Packet_Unmarshal (Payload p) = inr v ->
                               vp8_Payload v <> [] /\ vp8_S v <> 1)
           packets ->
    feed_all packets (i, s) = (i, s).
Proof.
  intros S SK P packets i s Hvp8 Hcur Hps.
  induction Hps as [|p packets Hp _ IH]; [reflexivity|].
  cbn [feed_all].
  assert (Hstep : exists r, WriteRTP (Some p) (i, s) = (r, (i, s))
                            /\ r <> Panic).
  { unfold WriteRTP, bind, get. cbv beta iota delta [fst snd].
    destruct (ioWriter i);
      [|eexists; split; [reflexivity|discriminate]].
    destruct (length (Payload p) =? 0)%nat;
      [eexists; split; [reflexivity|discriminate]|].
    rewrite Hvp8. unfold WriteRTP_VP8, bind, get.
    cbv beta iota delta [fst snd].
    destruct (VP8Packet_Unmarshal (Payload p)) as [e|v];
      [eexists; split; [reflexivity|discriminate]|].
    destruct (Hp v eq_refl) as [Hne Hs].
    destruct (vp8_Payload v) as [|b0 rest]; [congruence|].
    destruct (negb (seenKeyFrame i) && (Z.land (Z_of_byte b0) 1 =? 1));
      [eexists; split; [reflexivity|discriminate]|].
    rewrite Hcur. apply Z.eqb_neq in Hs. rewrite Hs. cbn [negb andb].
    eexists; split; [reflexivity|discriminate]. }
  destruct Hstep as (r & -> & Hr). destruct r as [[]|e|];
    [exact IH|exact IH|congruence].
Qed.

Lemma mid_partition_packets_dropped_witness :
  let i := set_isVP8 true
             (set_ioWriter (Some the_sink) (zero_IVFWriter (P := sample_Pion))) in
  let w := (i, mkPipe [] false) in
  feed_all [mkPacket [Byte.x00; Byte.x10; Byte.xaa] true 3000;
            mkPacket [Byte.x00; Byte.x11; Byte.xbb] false 3000] w
  = w.
Proof.
  intros i w.
  refine (@mid_partition_packets_dropped Pipe _ sample_Pion
            [mkPacket [Byte.x00; Byte.x10; Byte.xaa] true 3000;
             mkPacket [Byte.x00; Byte.x11; Byte.xbb] false 3000]
            i (mkPipe [] false) eq_refl eq_refl _).
  apply Forall_cons; [|apply Forall_cons; [|apply Forall_nil]];
    intros v H; vm_compute in H; injection H as <-;
    (split; [discriminate|vm_compute; discriminate]).
Defined.

(** ** A frame whose write failed *)

(** X11. When the write of a frame header fails, [WriteRTP] returns the
    error with the frame still in the buffer and the counter already one
    up. The next packet is then appended to that buffer whatever its [S]
    and key-frame bits are, and if it carries the marker and the writes
    succeed, the frame written is the failed frame followed by this
    packet's payload, under the next PTS. *)
Theorem failed_frame_is_prepended :
  forall (S : Type) (SK : Sink S) (P : Pion)
         (i : IVFWriter) (s s1 s2 s3 : S) (err : error)
         (p1 p2 : Packet) (v1 v2 : VP8Packet),
    isVP8 i = true -> ioWriter i <> None -> currentFrame i = None ->
    parsed (p1, v1) -> parsed (p2, v2) ->
    vp8_S v1 = 1 ->
    seenKeyFrame i = true \/ keyframe_indicator (vp8_Payload v1) = 0 ->
    Marker p1 = true -> Marker p2 = true ->
    let frame1 := vp8_Payload v1 in
    let frame2 := vp8_Payload v1 ++ vp8_Payload v2 in
    sink_Write (frameHeader frame1 (frameCount i)) s = (Some err, s1) ->
    sink_Write (frameHeader frame2 (uint64 (frameCount i + 1))) s1
    = (None, s2) ->
    sink_Write frame2 s2 = (None, s3) ->
    WriteRTP (Some p1) (i, s) = (Err err, (pending i p1 frame1, s1))
    /\ WriteRTP (Some p2) (pending i p1 frame1, s1)
       = (Ok tt,
          (set_frameCount (uint64 (uint64 (frameCount i + 1) + 1))
             (emitted i p1 p2),
           s3)).
Proof.
  intros S SK P i s s1 s2 s3 err p1 p2 v1 v2 Hvp8 Hopen Hcur Hp1 Hp2 Hs Hkey
         Hm1 Hm2 frame1 frame2 Hw1 Hw2 Hw3.
  split.
  - rewrite (@WriteRTP_completes _ _ _ i s p1 v1 Hvp8 Hopen Hp1 Hkey
               (or_intror Hs) Hm1).
    rewrite Hcur. cbn [bytes_of app]. fold frame1.
    unfold emission. now rewrite Hw1.
  - rewrite (@WriteRTP_completes _ _ _ (pending i p1 frame1) s1 p2 v2);
      [|exact Hvp8|exact Hopen|exact Hp2|now left|left; discriminate
       |exact Hm2].
    change (currentFrame (pending i p1 frame1)) with (Some frame1).
    cbn [bytes_of]. change (frame1 ++ vp8_Payload v2) with frame2.
    unfold emission.
    change (frameCount (pending i p1 frame1))
      with (uint64 (frameCount i + 1)).
    rewrite Hw2, Hw3. reflexivity.
Qed.

Lemma failed_frame_is_prepended_witness :
  let i := set_isVP8 true
             (set_ioWriter (Some the_sink) (zero_IVFWriter (P := sample_Pion))) in
  let p1 := mkPacket [Byte.x10; Byte.x10; Byte.xaa] true 3000 in
  let p2 := mkPacket [Byte.x00; Byte.x11; Byte.xbb] true 6000 in
  let frame2 := [Byte.x10; Byte.xaa; Byte.x11; Byte.xbb] in
  WriteRTP (Some p1) (i, mkFlaky [] 1)
  = (Err ErrNoSpace, (pending i p1 [Byte.x10; Byte.xaa], mkFlaky [] 0))
  /\ WriteRTP (Some p2) (pending i p1 [Byte.x10; Byte.xaa], mkFlaky [] 0)
     = (Ok tt,
        (set_frameCount 2 (emitted i p1 p2),
         mkFlaky (frameHeader frame2 1 ++ frame2) 0)).
Proof.
  intros i p1 p2 frame2.
  refine (@failed_frame_is_prepended Flaky _ sample_Pion i
            (mkFlaky [] 1) (mkFlaky [] 0)
            (mkFlaky (frameHeader frame2 1) 0)
            (mkFlaky (frameHeader frame2 1 ++ frame2) 0)
            ErrNoSpace p1 p2
            (mkVP8Packet 1 [Byte.x10; Byte.xaa])
            (mkVP8Packet 0 [Byte.x11; Byte.xbb])
            eq_refl _ eq_refl _ _ eq_refl _ eq_refl eq_refl
            eq_refl eq_refl eq_refl).
  - discriminate.
  - repeat split; discriminate.
  - repeat split; discriminate.
  - right. reflexivity.
Defined.

(** ** The AV1 path *)

Section AV1Path.

Context {S : Type} {SK : Sink S} {P : Pion}.

Lemma writeFrames_written (obus : list (list byte)) (i : IVFWriter) (s s' : S) :
  ioWriter i <> None ->
  write_all (slot_chunks (frameCount i) (map Written obus)) s = Some s' ->
  writeFrames obus (i, s)
  = (Ok tt, (set_frameCount (count_after (frameCount i) (length obus)) i, s')).
Proof.
  revert i s. induction obus as [|obu obus IH]; intros i s Hopen Hw.
  - cbn in *. injection Hw as <-. now rewrite set_frameCount_same.
  - cbn [map slot_chunks] in Hw.
    change (frameHeader obu (frameCount i) :: obu
              :: slot_chunks (uint64 (frameCount i + 1)) (map Written obus))
      with ([frameHeader obu (frameCount i); obu]
              ++ slot_chunks (uint64 (frameCount i + 1)) (map Written obus))
      in Hw.
    rewrite write_all_app in Hw.
    destruct (write_all [frameHeader obu (frameCount i); obu] s)
      as [s1|] eqn:E1; [|discriminate Hw].
    cbn [writeFrames]. unfold bind.
    rewrite (@writeFrame_written _ _ _ obu i s s1 Hopen E1).
    rewrite (IH (set_frameCount (uint64 (frameCount i + 1)) i) s1 Hopen Hw).
    reflexivity.
Qed.

End AV1Path.

(** X12. On an open AV1 writer, a packet that parses and from which
    [ReadFrames] returns OBUs makes [WriteRTP] write each OBU as a frame
    of its own, in the order returned: header then bytes, with consecutive
    PTS values starting at the counter. When these writes succeed the call
    returns nil, the counter is up by the number of OBUs, and the only
    other change is the state of the frame assembler. *)
Theorem AV1_packet_writes_its_OBUs :
  forall (S : Type) (SK : Sink S) (P : Pion)
         (i : IVFWriter) (s s' : S) (packet : Packet)
         (av1Packet : AV1Packet) (obus : list (list byte)) (st : AV1),
    ioWriter i <> None ->
    isVP8 i = false -> isAV1 i = true ->
    0 <= frameCount i < 2 ^ 64 ->
    Payload packet <> [] ->
    AV1Packet_Unmarshal (Payload packet) = inr av1Packet ->
    AV1_ReadFrames av1Packet (av1Frame i) = (inr obus, st) ->
    write_all (slot_chunks (frameCount i) (map Written obus)) s = Some s' ->
    WriteRTP (Some packet) (i, s)
    = (Ok tt,
       (set_frameCount (uint64 (frameCount i + Z.of_nat (length obus)))
          (set_av1Frame st i),
        s')).
Proof.
  intros S SK P i s s' packet av1Packet obus st Hopen Hv Ha Hr Hp Hu Hrf Hw.
  unfold WriteRTP, bind, get. cbv beta iota delta [fst snd].
  destruct (ioWriter i) eqn:Eio; [|congruence].
  destruct (Payload packet) as [|b bs] eqn:Ep; [congruence|].
  cbn [length Nat.eqb]. rewrite Hv, Ha.
  unfold WriteRTP_AV1. rewrite Ep, Hu. unfold bind, get.
  cbv beta iota delta [fst snd]. rewrite Hrf.
  unfold modify. cbv beta iota delta [fst snd].
  rewrite (@writeFrames_written _ _ _ obus (set_av1Frame st i) s s');
    [|cbn [ioWriter set_av1Frame]; congruence|exact Hw].
  cbn [frameCount set_av1Frame]. now rewrite count_after_uint64.
Qed.

Lemma AV1_packet_writes_its_OBUs_witness :
  let i := set_isAV1 true
             (set_ioWriter (Some the_sink) (zero_IVFWriter (P := sample_Pion))) in
  let obu := [Byte.xaa; Byte.xbb] in
  WriteRTP (Some (mkPacket (Byte.x00 :: obu) false 4500)) (i, mkPipe [] false)
  = (Ok tt, (set_frameCount 1 i, mkPipe (frameHeader obu 0 ++ obu) false)).
Proof.
  intros i obu.
  refine (@AV1_packet_writes_its_OBUs Pipe _ sample_Pion i (mkPipe [] false)
            (mkPipe (frameHeader obu 0 ++ obu) false)
            (mkPacket (Byte.x00 :: obu) false 4500) obu [obu] tt
            _ eq_refl eq_refl _ _ eq_refl eq_refl eq_refl).
  - discriminate.
  - cbn. lia.
  - discriminate.
Defined.

(** ** Options together *)

Section Options.

Context {S : Type} {SK : Sink S} {P : Pion}.

Lemma apply_opts_app (a b : list Option) (i : IVFWriter) :
  apply_opts (a ++ b) i
  = match apply_opts a i with
    | (Some e, i') => (Some e, i')
    | (None, i') => apply_opts b i'
    end.
Proof.
  revert i. induction a as [|o a IH]; intros i; [reflexivity|].
  cbn [app apply_opts]. destruct (o i) as [[e|] i']; [reflexivity|apply IH].
Qed.

(** An exported option fails with one of the two codec errors only, and
    leaves a bound codec bound. *)
Lemma exported_option_outcome (o : Option) (i i' : IVFWriter) (e : option error) :
  exported_option o -> o i = (e, i') ->
  (e = None \/ e = Some errCodecAlreadySet \/ e = Some errNoSuchCodec)
  /\ (isVP8 i || isAV1 i = true -> isVP8 i' || isAV1 i' = true).
Proof.
  intros Ho Hr. destruct Ho as [m|r].
  - unfold WithCodec in Hr.
    destruct (isVP8 i || isAV1 i) eqn:Eb.
    + injection Hr as <- <-. auto.
    + destruct (String.eqb m mimeTypeVP8);
        [|destruct (String.eqb m mimeTypeAV1)];
        injection Hr as <- <-; split; auto; intros; discriminate.
  - unfold WithClockRate in Hr. injection Hr as <- <-. auto.
Qed.

Lemma exported_opts_outcome (opts : list Option) (i i' : IVFWriter)
      (e : option error) :
  Forall exported_option opts -> apply_opts opts i = (e, i') ->
  (e = None \/ e = Some errCodecAlreadySet \/ e = Some errNoSuchCodec)
  /\ (e = None -> isVP8 i || isAV1 i = true -> isVP8 i' || isAV1 i' = true).
Proof.
  intros Ho. revert i. induction Ho as [|o opts Ho _ IH]; intros i Hr.
  - injection Hr as <- <-. auto.
  - cbn [apply_opts] in Hr. destruct (o i) as [[err|] i1] eqn:Eo.
    + injection Hr as <- <-.
      destruct (@exported_option_outcome o i i1 _ Ho Eo) as [[H|H] _];
        [discriminate H|]. split; [now right|discriminate].
    + destruct (IH _ Hr) as [H1 H2]. split; [exact H1|].
      intros He Hb. apply H2; [exact He|].
      now apply (proj2 (@exported_option_outcome o i i1 _ Ho Eo)).
Qed.

Lemma WithCodec_binds (m : string) (i i' : IVFWriter) :
  WithCodec m i = (None, i') -> isVP8 i' || isAV1 i' = true.
Proof.
  unfold WithCodec. destruct (isVP8 i || isAV1 i); [discriminate|].
  destruct (String.eqb m mimeTypeVP8).
  - intros H. injection H as <-. cbn. now destruct (clockRate i =? 0).
  - destruct (String.eqb m mimeTypeAV1); [|discriminate].
    intros H. injection H as <-. cbn. apply orb_true_r.
Qed.

End Options.

(** X13. A second codec option is never accepted: when the options given
    to [NewWith] hold two [WithCodec] among exported options, construction
    fails with [errCodecAlreadySet] or [errNoSuchCodec], whatever the two
    mime types are and whatever options follow, and nothing is written to
    the sink. *)
Theorem two_codec_options_fail :
  forall (S : Type) (SK : Sink S) (P : Pion)
         (before between after : list Option) (m1 m2 : string) (s : S),
    Forall exported_option before ->
    Forall exported_option between ->
    exists e,
      NewWith (Some the_sink)
              (before ++ WithCodec m1 :: between ++ WithCodec m2 :: after) s
      = (Err e, s)
      /\ (e = errCodecAlreadySet \/ e = errNoSuchCodec).
Proof.
  intros S SK P before between after m1 m2 s Hb Hm.
  unfold NewWith.
  set (i0 := set_ioWriter (Some the_sink) zero_IVFWriter).
  assert (Hfail : exists e i',
             apply_opts (before ++ WithCodec m1 :: between
                           ++ WithCodec m2 :: after) i0 = (Some e, i')
             /\ (e = errCodecAlreadySet \/ e = errNoSuchCodec)).
  { rewrite apply_opts_app.
    destruct (apply_opts before i0) as [[e|] i1] eqn:E1.
    { destruct (@exported_opts_outcome _ before i0 i1 _ Hb E1) as [[H|[H|H]] _];
        [discriminate H| |]; injection H as ->; eauto. }
    cbn [apply_opts].
    destruct (WithCodec m1 i1) as [[e|] i2] eqn:E2.
    { assert (Hx : exported_option (WithCodec m1)) by constructor.
      destruct (@exported_option_outcome _ _ i1 i2 _ Hx E2) as [[H|[H|H]] _];
        [discriminate H| |]; injection H as ->; eauto. }
    pose proof (@WithCodec_binds _ m1 i1 i2 E2) as Hbound.
    rewrite apply_opts_app.
    destruct (apply_opts between i2) as [[e|] i3] eqn:E3.
    { destruct (@exported_opts_outcome _ between i2 i3 _ Hm E3) as [[H|[H|H]] _];
        [discriminate H| |]; injection H as ->; eauto. }
    destruct (@exported_opts_outcome _ between i2 i3 _ Hm E3) as [_ H3].
    cbn [apply_opts].
    rewrite (@WithCodec_bound _ m2 i3 (H3 eq_refl Hbound)). eauto. }
  destruct Hfail as (e & i' & -> & He). exists e. split; [reflexivity|exact He].
Qed.

Lemma two_codec_options_fail_witness :
  exists e,
    NewWith (P := sample_Pion) (Some the_sink)
            ([WithClockRate 48000] ++ WithCodec mimeTypeAV1
               :: [] ++ WithCodec mimeTypeVP8 :: [])
            (mkPipe [] false)
    = (Err e, mkPipe [] false)
    /\ (e = errCodecAlreadySet \/ e = errNoSuchCodec).
Proof.
  refine (@two_codec_options_fail Pipe _ sample_Pion [WithClockRate 48000] []
            [] mimeTypeAV1 mimeTypeVP8 (mkPipe [] false) _ _);
    repeat constructor.
Defined.

(** X14. A non-zero clock rate and a codec can be given in either order:
    [NewWith] does the same with [WithClockRate rate] before or after
    [WithCodec mimeType], and on success the writer has that clock rate.
    (With rate 0 the order matters for VP8, whose default 90000 is set
    only while the rate is 0.) *)
Theorem clock_rate_and_codec_commute :
  forall (S : Type) (SK : Sink S) (P : Pion)
         (rate : Z) (mimeType : string) (s : S),
    rate <> 0 ->
    NewWith (Some the_sink) [WithClockRate rate; WithCodec mimeType] s
    = NewWith (Some the_sink) [WithCodec mimeType; WithClockRate rate] s
    /\ (forall w s',
          NewWith (Some the_sink) [WithCodec mimeType; WithClockRate rate] s
          = (Ok w, s') ->
          clockRate w = rate).
Proof.
  intros S SK P rate mimeType s Hr. apply Z.eqb_neq in Hr.
  set (i0 := set_ioWriter (Some the_sink) zero_IVFWriter).
  assert (Hboth :
    (exists e j1 j2,
        apply_opts [WithClockRate rate; WithCodec mimeType] i0 = (Some e, j1)
        /\ apply_opts [WithCodec mimeType; WithClockRate rate] i0
           = (Some e, j2))
    \/ (exists j,
          apply_opts [WithClockRate rate; WithCodec mimeType] i0 = (None, j)
          /\ apply_opts [WithCodec mimeType; WithClockRate rate] i0 = (None, j)
          /\ ioWriter j = Some the_sink /\ clockRate j = rate
          /\ isVP8 j || isAV1 j = true)).
  { unfold apply_opts, WithClockRate, WithCodec. subst i0.
    cbn [isVP8 isAV1 clockRate set_clockRate set_ioWriter zero_IVFWriter orb].
    destruct (String.eqb mimeType mimeTypeVP8);
      [|destruct (String.eqb mimeType mimeTypeAV1)].
    - right. cbn [isVP8 isAV1 clockRate set_clockRate set_isVP8 Z.eqb].
      rewrite Hr. eexists. repeat split.
    - right. eexists. repeat split.
    - left. eauto. }
  unfold NewWith. fold i0.
  destruct Hboth as [(e & j1 & j2 & -> & ->) | (j & -> & -> & Hio & Hc & Hb)].
  - split; [reflexivity|]. intros w s' H. discriminate H.
  - split; [reflexivity|]. intros w s'.
    assert (Hd : negb (isAV1 j) && negb (isVP8 j) = false)
      by (destruct (isVP8 j), (isAV1 j); try reflexivity; discriminate Hb).
    rewrite Hd. unfold writeHeader, bind, get, on_sink.
    cbv beta iota delta [fst snd]. rewrite Hio.
    destruct (sink_Write (fileHeader (isVP8 j) (isAV1 j)) s) as [[e|] s1];
      cbn [res_of_error]; intros H; [discriminate H|].
    injection H as <- _. exact Hc.
Qed.

Lemma clock_rate_and_codec_commute_witness :
  NewWith (P := sample_Pion) (Some the_sink)
          [WithClockRate 48000; WithCodec mimeTypeVP8] (mkPipe [] false)
  = NewWith (Some the_sink)
            [WithCodec mimeTypeVP8; WithClockRate 48000] (mkPipe [] false).
Proof.
  refine (proj1 (@clock_rate_and_codec_commute Pipe _ sample_Pion 48000
                   mimeTypeVP8 (mkPipe [] false) _)).
  discriminate.
Defined.

(** ** The fields of a frame header *)

(** X15. The frame header [writeFrame] builds has 12 bytes. Read back
    little-endian, its first four bytes are the frame's length modulo
    2^32 (a longer frame has its length truncated) and its last eight the
    counter modulo 2^64. *)
Theorem frameHeader_fields :
  forall (frame : list byte) (count : Z),
    length (frameHeader frame count) = 12%nat
    /\ le_value (firstn 4 (frameHeader frame count))
       = Z.of_nat (length frame) mod 2 ^ 32
    /\ le_value (skipn 4 (frameHeader frame count)) = count mod 2 ^ 64.
Proof.
  intros frame count. rewrite frameHeader_layout.
  rewrite firstn_le_bytes, skipn_le_bytes, !le_value_le_bytes.
  rewrite length_app, !le_bytes_length. unfold uint32.
  change (256 ^ Z.of_nat 4) with (2 ^ 32).
  change (256 ^ Z.of_nat 8) with (2 ^ 64).
  rewrite Z.mod_mod by lia. repeat split.
Qed.
